(** * Customer support bot: session and history store (src/app.py)

    A shallow embedding of the persistence and session logic of [app.py]:
    the chat and history files ([load_chat], [save_chat], [save_to_history]),
    the per-customer session dictionary, the "New Chat" handler, the
    consumption of the streamed completion and one run of the script.

    Python values are modelled as follows.
    - A [str] is a list of code points ([N], each below 0x110000); a lone
      surrogate is a legal element of a Python [str].
    - A message is a dict with the keys ["role"] and ["content"], both [str].
    - The directory [chats/] is a finite map from path to file content, the
      content being the bytes on disk.  Whether the file system lets the
      program open a path for writing is its own business (a separator in
      the name that leads into a directory that does not exist, a NUL, a
      name that is too long): it is the parameter [open_error].  A disk that
      fills up during a write is outside the model.
    - [st.session_state] is the optional dictionary [customer_chats].
    - An uncaught exception ends the run: [Raise e].  What a run leaves
      behind when it raises (a file opened for writing and not completed) is
      not described.
    - A record that is JSON of another shape than the program writes is
      loaded by [json.load] into a value that is not a list of messages:
      the model gives no verdict on such a run, [Beyond]. *)

From Stdlib Require Import NArith Ascii String Lia.
From stdpp Require Import base option list gmap.

Local Open Scope N_scope.

(** [lia] with quotients and remainders by constants. *)
Ltac Zify.zify_post_hook ::= Z.to_euclidean_division_equations.

(** ** Text and bytes *)

Abbreviation str := (list N).
Abbreviation bytes := (list N).

(** An ASCII literal of the source as a Python [str]. *)
Definition lit (s : string) : str :=
  map N_of_ascii (list_ascii_of_string s).

Inductive exn :=
  | UnicodeEncodeError
  | UnicodeDecodeError
  | JSONDecodeError
  | AttributeError
  | KeyError
  | FileNotFoundError
  | OSError
  | ValueError.

(** The outcome of a computation: a value, an uncaught exception, or
    [Beyond] when the computation leaves what the model describes. *)
Inductive result (A : Type) :=
  | Ok (a : A)
  | Raise (e : exn)
  | Beyond.
Arguments Ok {A} a.
Arguments Raise {A} e.
Arguments Beyond {A}.

Definition bind {A B} (r : result A) (k : A -> result B) : result B :=
  match r with
  | Ok a => k a
  | Raise e => Raise e
  | Beyond => Beyond
  end.

Notation "'do' x <- r ; k" := (bind r (fun x => k))
  (at level 10, x name, r at level 100, k at level 200).

Definition or_raise {A} (e : exn) (o : option A) : result A :=
  match o with
  | Some a => Ok a
  | None => Raise e
  end.

(** ** UTF-8, as used by [open(path, mode, encoding="utf-8")] *)

Module Utf8.

Definition is_surrogate (c : N) : bool := (0xD800 <=? c) && (c <=? 0xDFFF).

(** Unicode scalar values: the code points the codec accepts. *)
Definition scalar (c : N) : bool := (c <? 0x110000) && negb (is_surrogate c).

Definition encode_char (c : N) : option bytes :=
  if c <? 0x80 then Some [c]
  else if c <? 0x800 then Some [0xC0 + c / 64; 0x80 + c mod 64]
  else if c <? 0x10000 then
    if is_surrogate c then None
    else Some [0xE0 + c / 4096; 0x80 + (c / 64) mod 64; 0x80 + c mod 64]
  else if c <? 0x110000 then
    Some [0xF0 + c / 262144; 0x80 + (c / 4096) mod 64;
          0x80 + (c / 64) mod 64; 0x80 + c mod 64]
  else None.

Fixpoint encode (s : str) : option bytes :=
  match s with
  | [] => Some []
  | c :: t =>
      match encode_char c, encode t with
      | Some b, Some r => Some (b ++ r)
      | _, _ => None
      end
  end.

Definition is_cont (b : N) : bool := (0x80 <=? b) && (b <? 0xC0).

(** Strict decoding: overlong forms, surrogates and values above 0x10FFFF
    are rejected. *)
Fixpoint decode (bs : bytes) : option str :=
  match bs with
  | [] => Some []
  | b0 :: t =>
      if b0 <? 0x80 then cons b0 <$> decode t
      else if b0 <? 0xC2 then None
      else if b0 <? 0xE0 then
        match t with
        | b1 :: t1 =>
            if is_cont b1
            then cons ((b0 - 0xC0) * 64 + (b1 - 0x80)) <$> decode t1
            else None
        | _ => None
        end
      else if b0 <? 0xF0 then
        match t with
        | b1 :: b2 :: t2 =>
            let c := (b0 - 0xE0) * 4096 + (b1 - 0x80) * 64 + (b2 - 0x80) in
            if is_cont b1 && is_cont b2 && (0x800 <=? c)
               && negb (is_surrogate c)
            then cons c <$> decode t2
            else None
        | _ => None
        end
      else if b0 <? 0xF5 then
        match t with
        | b1 :: b2 :: b3 :: t3 =>
            let c := (b0 - 0xF0) * 262144 + (b1 - 0x80) * 4096
                     + (b2 - 0x80) * 64 + (b3 - 0x80) in
            if is_cont b1 && is_cont b2 && is_cont b3
               && (0x10000 <=? c) && (c <? 0x110000)
            then cons c <$> decode t3
            else None
        | _ => None
        end
      else None
  end.

End Utf8.

(** ** Text files

    [open(path, "w", encoding="utf-8")] translates every ["\n"] written to
    [os.linesep] and encodes the text; [open(path, "r", encoding="utf-8")]
    decodes the bytes and reads with universal newlines: ["\r\n"] and a lone
    ["\r"] both arrive as ["\n"]. *)

Inductive platform := Posix | Windows.

Definition linesep (os : platform) : str :=
  match os with
  | Posix => [10]
  | Windows => [13; 10]
  end.

Definition pathsep (os : platform) : str :=
  match os with
  | Posix => lit "/"
  | Windows => [92]
  end.

Definition write_newlines (os : platform) (s : str) : str :=
  flat_map (fun c => if c =? 10 then linesep os else [c]) s.

Fixpoint universal_newlines (s : str) : str :=
  match s with
  | [] => []
  | c :: t =>
      if c =? 13 then
        10 :: match t with
              | d :: t' =>
                  if d =? 10 then universal_newlines t'
                  else universal_newlines t
              | [] => []
              end
      else c :: universal_newlines t
  end.

Definition write_text (os : platform) (s : str) : result bytes :=
  or_raise UnicodeEncodeError (Utf8.encode (write_newlines os s)).

Definition read_text (b : bytes) : result str :=
  do s <- or_raise UnicodeDecodeError (Utf8.decode b);
  Ok (universal_newlines s).

(** ** Messages and their JSON form *)

Record message := Message { role : str; content : str }.

Abbreviation chat := (list message).

Module Json.

(** [json.dump(obj, f, indent=2, ensure_ascii=False)]: only the quote, the
    backslash and the control characters below 0x20 are escaped; every other
    code point is written as it is. *)

Definition hexdigit (d : N) : N := if d <? 10 then 48 + d else 87 + d.

Definition escape_char (c : N) : str :=
  if c =? 34 then [92; 34]
  else if c =? 92 then lit "\\"
  else if c =? 10 then lit "\n"
  else if c =? 13 then lit "\r"
  else if c =? 9 then lit "\t"
  else if c =? 8 then lit "\b"
  else if c =? 12 then lit "\f"
  else if c <? 32 then lit "\u00" ++ [hexdigit (c / 16); hexdigit (c mod 16)]
  else [c].

Definition encode_basestring (s : str) : str :=
  [34] ++ flat_map escape_char s ++ [34].

Definition dump_message (m : message) : str :=
  lit "{" ++ [10] ++ lit "    "
  ++ encode_basestring (lit "role") ++ lit ": " ++ encode_basestring (role m)
  ++ lit "," ++ [10] ++ lit "    "
  ++ encode_basestring (lit "content") ++ lit ": "
  ++ encode_basestring (content m)
  ++ [10] ++ lit "  " ++ lit "}".

Fixpoint dump_items (ms : chat) : str :=
  match ms with
  | [] => []
  | [m] => dump_message m
  | m :: rest => dump_message m ++ lit "," ++ [10] ++ lit "  " ++ dump_items rest
  end.

Definition dumps (ms : chat) : str :=
  match ms with
  | [] => lit "[]"
  | _ => lit "[" ++ [10] ++ lit "  " ++ dump_items ms ++ [10] ++ lit "]"
  end.

(** The documents this program writes: an array of objects with the two
    members ["role"] and ["content"], in that order, both strings, with any
    JSON white space.  [parse_chat] recognises them; [None] says that the
    text is not one of them, not that [json.load] raises. *)

Definition is_ws (c : N) : bool :=
  (c =? 32) || (c =? 9) || (c =? 10) || (c =? 13).

Fixpoint skip_ws (s : str) : str :=
  match s with
  | c :: t => if is_ws c then skip_ws t else s
  | [] => []
  end.

Definition expect (c : N) (s : str) : option str :=
  match s with
  | x :: t => if x =? c then Some t else None
  | [] => None
  end.

Definition hexval (c : N) : option N :=
  if (48 <=? c) && (c <=? 57) then Some (c - 48)
  else if (97 <=? c) && (c <=? 102) then Some (c - 87)
  else if (65 <=? c) && (c <=? 70) then Some (c - 55)
  else None.

Definition hex4 (a b c d : N) : option N :=
  match hexval a, hexval b, hexval c, hexval d with
  | Some x, Some y, Some z, Some w => Some (((x * 16 + y) * 16 + z) * 16 + w)
  | _, _, _, _ => None
  end.

Definition unescape (e : N) : option N :=
  if e =? 34 then Some 34
  else if e =? 92 then Some 92
  else if e =? 47 then Some 47
  else if e =? 98 then Some 8
  else if e =? 102 then Some 12
  else if e =? 110 then Some 10
  else if e =? 114 then Some 13
  else if e =? 116 then Some 9
  else None.

Definition is_high (u : N) : bool := (0xD800 <=? u) && (u <=? 0xDBFF).
Definition is_low (u : N) : bool := (0xDC00 <=? u) && (u <=? 0xDFFF).
Definition join (u u2 : N) : N := 0x10000 + (u - 0xD800) * 1024 + (u2 - 0xDC00).

Definition push (c : N) (r : option (str * str)) : option (str * str) :=
  match r with
  | Some (a, rest) => Some (c :: a, rest)
  | None => None
  end.

(** The body of a string literal, after its opening quote: the decoded text
    and what follows the closing quote. *)
Fixpoint scan_string (s : str) : option (str * str) :=
  match s with
  | [] => None
  | c :: t =>
      if c =? 34 then Some ([], t)
      else if c =? 92 then
        match t with
        | [] => None
        | e :: t1 =>
            if e =? 117 then
              match t1 with
              | h1 :: h2 :: h3 :: h4 :: t2 =>
                  match hex4 h1 h2 h3 h4 with
                  | None => None
                  | Some u =>
                      if is_high u then
                        match t2 with
                        | b :: x :: g1 :: g2 :: g3 :: g4 :: t3 =>
                            if (b =? 92) && (x =? 117) then
                              match hex4 g1 g2 g3 g4 with
                              | None => None
                              | Some u2 =>
                                  if is_low u2
                                  then push (join u u2) (scan_string t3)
                                  else push u (scan_string t2)
                              end
                            else push u (scan_string t2)
                        | _ => push u (scan_string t2)
                        end
                      else push u (scan_string t2)
                  end
              | _ => None
              end
            else
              match unescape e with
              | Some c' => push c' (scan_string t1)
              | None => None
              end
        end
      else if c <? 32 then None
      else push c (scan_string t)
  end.

Definition parse_string (s : str) : option (str * str) :=
  match expect 34 s with
  | Some t => scan_string t
  | None => None
  end.

Definition parse_member (key : str) (s : str) : option (str * str) :=
  match parse_string s with
  | Some (k, s1) =>
      if bool_decide (k = key) then
        match expect 58 (skip_ws s1) with
        | Some s2 => parse_string (skip_ws s2)
        | None => None
        end
      else None
  | None => None
  end.

Definition parse_message (s : str) : option (message * str) :=
  match expect 123 s with
  | Some s1 =>
      match parse_member (lit "role") (skip_ws s1) with
      | Some (r, s2) =>
          match expect 44 (skip_ws s2) with
          | Some s3 =>
              match parse_member (lit "content") (skip_ws s3) with
              | Some (c, s4) =>
                  match expect 125 (skip_ws s4) with
                  | Some s5 => Some (Message r c, s5)
                  | None => None
                  end
              | None => None
              end
          | None => None
          end
      | None => None
      end
  | None => None
  end.

(** The elements of a non-empty array, up to and including its ["]"]. *)
Fixpoint parse_items (fuel : nat) (s : str) : option (chat * str) :=
  match fuel with
  | O => None
  | S fuel' =>
      match parse_message s with
      | Some (m, s1) =>
          match skip_ws s1 with
          | c :: t =>
              if c =? 93 then Some ([m], t)
              else if c =? 44 then
                match parse_items fuel' (skip_ws t) with
                | Some (ms, r) => Some (m :: ms, r)
                | None => None
                end
              else None
          | [] => None
          end
      | None => None
      end
  end.

Definition parse_array (s : str) : option (chat * str) :=
  match expect 91 s with
  | Some s1 =>
      match skip_ws s1 with
      | c :: t => if c =? 93 then Some ([], t) else parse_items (length s) (c :: t)
      | [] => None
      end
  | None => None
  end.

Definition parse_chat (s : str) : option chat :=
  match parse_array (skip_ws s) with
  | Some (ms, r) => match skip_ws r with [] => Some ms | _ => None end
  | None => None
  end.

(** The characters a JSON value can start with: a quote, a brace, a
    bracket, a minus, a digit and the first letters of [null], [true],
    [false], [NaN] and [Infinity]. *)
Definition value_start (c : N) : bool :=
  (c =? 34) || (c =? 123) || (c =? 91) || (c =? 45)
  || ((48 <=? c) && (c <=? 57))
  || (c =? 110) || (c =? 116) || (c =? 102) || (c =? 78) || (c =? 73).

(** [json.loads]: a text that starts with a byte order mark, or in which
    no value starts after the white space, raises [JSONDecodeError]; a
    document of the program's form is loaded as the list of messages; for
    every other text (JSON of another shape, or a text that goes wrong
    further on) the model gives no verdict. *)
Definition loads (s : str) : result chat :=
  match s with
  | c :: _ =>
      if c =? 0xFEFF then Raise JSONDecodeError
      else
        match skip_ws s with
        | d :: _ =>
            if value_start d then
              match parse_chat s with
              | Some ms => Ok ms
              | None => Beyond
              end
            else Raise JSONDecodeError
        | [] => Raise JSONDecodeError
        end
  | [] => Raise JSONDecodeError
  end.

End Json.

(** ** Text that the files can hold

    A text made of Unicode scalar values; a Python [str] holding a lone
    surrogate is not encodable. *)

Definition unicode_text (s : str) : bool := forallb Utf8.scalar s.

Definition unicode_message (m : message) : bool :=
  unicode_text (role m) && unicode_text (content m).

Definition unicode_chat (c : chat) : bool := forallb unicode_message c.

(** A scalar value other than the carriage return: what [json.dump] writes. *)
Definition plain (c : N) : bool := Utf8.scalar c && negb (c =? 13).

(** [st.write], [st.markdown] and [st.chat_message] send their text to the
    browser encoded as UTF-8: a text with a lone surrogate makes the call
    raise. *)
Definition render (s : str) : result unit :=
  if unicode_text s then Ok tt else Raise UnicodeEncodeError.

(** ** The program *)

(** Python's truth value of a [str]. *)
Definition truthy (s : str) : bool :=
  match s with
  | [] => false
  | _ :: _ => true
  end.

(** What the completion backend delivers for one request: the value of
    [chunk.choices[0].delta.content] for each chunk consumed, in arrival
    order, and how the consumption ends: normally, or with an exception [e]
    raised inside the [try] block, given by [str(e)].  An exception raised by
    [create] itself is a failure after no chunk. *)
Record stream := Stream { chunks : list (option str); failure : option str }.

(** One run of the script: the sidebar text input, the "New Chat" button,
    the chat input box and the backend's answer to a request. *)
Record event := Event {
  customer_id : str;
  new_chat : bool;
  chat_input : option str;
  completions : chat -> stream
}.

(** [st.session_state] and the directory of records. *)
Record state := State {
  customer_chats : option (gmap str chat);
  files : gmap str bytes
}.

Definition CHAT_DIR : str := lit "chats".

(** [with open(path, "r", encoding="utf-8") as f: json.load(f)] *)
Definition read_json (b : bytes) : result chat :=
  do s <- read_text b;
  Json.loads s.

(** [st.session_state.customer_chats[customer_id]] *)
Definition the_chat (id : str) (st : state) : result chat :=
  match customer_chats st with
  | None => Raise AttributeError
  | Some chats => or_raise KeyError (chats !! id)
  end.

Definition session (st : state) : gmap str chat :=
  default ∅ (customer_chats st).

(** [chunk.choices[0].delta.content or ""] *)
Definition delta_or_empty (d : option str) : str :=
  match d with
  | Some t => if truthy t then t else []
  | None => []
  end.

(** The marker of line 159: U+26A0, U+FE0F and [" Error: "]. *)
Definition ERROR_MARKER : str := [0x26A0; 0xFE0F] ++ lit " Error: ".

(** Lines 141-160: the text assembled from the stream, replaced by the
    error text when the request or the iteration raises. *)
Definition consume_stream (s : stream) : str :=
  let streamed_text :=
    fold_left (fun text d => text ++ delta_or_empty d) (chunks s) [] in
  match failure s with
  | Some e => ERROR_MARKER ++ e
  | None => streamed_text
  end.

(** The record at [path] holds the conversation [c]. *)
Definition stored (fs : gmap str bytes) (path : str) (c : chat) : Prop :=
  exists b, fs !! path = Some b /\ read_json b = Ok c.

(** A sequence of mutations of one customer's conversation. *)
Inductive mutation :=
  | UserMessage (text : str)
  | AssistantMessage (text : str).

Definition mutation_text (mu : mutation) : str :=
  match mu with
  | UserMessage t => t
  | AssistantMessage t => t
  end.

Definition mutation_message (mu : mutation) : message :=
  match mu with
  | UserMessage t => Message (lit "user") t
  | AssistantMessage t => Message (lit "assistant") t
  end.

(** Lines 114-120: what the page shows of a conversation, one
    [st.chat_message(role)] with its [st.markdown(content)] for each message
    that is not a system message. *)
Definition display_chat (c : chat) : list (str * str) :=
  fold_left (fun shown msg =>
               if bool_decide (role msg = lit "system") then shown
               else shown ++ [(role msg, content msg)])
            c [].

(** Lines 116-120, drawing what [display_chat] lists. *)
Fixpoint render_all (shown : list (str * str)) : result unit :=
  match shown with
  | [] => Ok tt
  | (name, text) :: rest =>
      do _ <- render name;
      do _ <- render text;
      render_all rest
  end.

Definition show_chat (c : chat) : result unit := render_all (display_chat c).

(** Lines 106-107: one [st.write] for each message of the history, of the
    text "**Role**: content".  [str.capitalize] changes the case of letters:
    it keeps a lone surrogate and makes none, so the line can be sent exactly
    when the role and the content are Unicode text. *)
Fixpoint show_history_lines (history : chat) : result unit :=
  match history with
  | [] => Ok tt
  | msg :: rest =>
      do _ <- (if unicode_message msg then Ok tt else Raise UnicodeEncodeError);
      show_history_lines rest
  end.

(** A file system in which [chats/] holds no directory, on the paths this
    program builds: a name with a separator leads into a directory that
    does not exist, and a NUL is refused before the system is asked. *)
Definition is_separator (os : platform) (c : N) : bool :=
  match os with
  | Posix => c =? 47
  | Windows => (c =? 47) || (c =? 92)
  end.

Definition only_chat_dir (os : platform) (path : str) : option exn :=
  if existsb (fun c => c =? 0) path then Some ValueError
  else if existsb (is_separator os)
                  (drop (length (CHAT_DIR ++ pathsep os)) path)
  then Some FileNotFoundError
  else None.

Section App.

Variable os : platform.

(** The exception that [open(path, "w", encoding="utf-8")] raises for a
    path, if it raises one: the verdict of the file system. *)
Variable open_error : str -> option exn.

Definition open_for_writing (path : str) : result unit :=
  match open_error path with
  | Some e => Raise e
  | None => Ok tt
  end.

(** Configuration from the environment (lines 10-17). *)
Variable api_key : option str.
Variable system_prompt : str.

(** [os.path.join(CHAT_DIR, name)] for a [name] that starts with
    ["customer_"]: never an absolute path. *)
Definition path_join (dir name : str) : str := dir ++ pathsep os ++ name.

Definition chat_file (id : str) : str :=
  path_join CHAT_DIR (lit "customer_" ++ id ++ lit ".json").

Definition history_file (id : str) : str :=
  path_join CHAT_DIR (lit "customer_" ++ id ++ lit "_history.json").

(** [with open(path, "w", encoding="utf-8") as f:
       json.dump(c, f, indent=2, ensure_ascii=False)] *)
Definition write_json (c : chat) : result bytes :=
  write_text os (Json.dumps c).

Definition system_message : message := Message (lit "system") system_prompt.

Definition load_chat (id : str) (fs : gmap str bytes) : result chat :=
  match fs !! chat_file id with
  | Some b => read_json b
  | None => Ok [system_message]
  end.

Definition save_chat (id : str) (c : chat) (fs : gmap str bytes)
  : result (gmap str bytes) :=
  do _ <- open_for_writing (chat_file id);
  do b <- write_json c;
  Ok (<[chat_file id := b]> fs).

Definition save_to_history (id : str) (c : chat) (fs : gmap str bytes)
  : result (gmap str bytes) :=
  let path := history_file id in
  do history <- match fs !! path with
                | Some b => read_json b
                | None => Ok []
                end;
  let history :=
    fold_left (fun history msg =>
                 if bool_decide (role msg <> lit "system")
                 then history ++ [msg] else history)
              c history in
  do _ <- open_for_writing path;
  do b <- write_json history;
  Ok (<[path := b]> fs).

(** Lines 102-105: the history record, when there is one. *)
Definition load_history (id : str) (fs : gmap str bytes) : result (option chat) :=
  match fs !! history_file id with
  | Some b => do h <- read_json b; Ok (Some h)
  | None => Ok None
  end.

(** Lines 102-107: the history in the sidebar. *)
Definition show_history (id : str) (fs : gmap str bytes) : result unit :=
  do oh <- load_history id fs;
  match oh with
  | Some history => show_history_lines history
  | None => Ok tt
  end.

(** Lines 75-79. *)
Definition ensure_loaded (id : str) (st : state) : result state :=
  let chats := session st in
  match chats !! id with
  | Some _ => Ok (State (Some chats) (files st))
  | None =>
      do c <- load_chat id (files st);
      Ok (State (Some (<[id := c]> chats)) (files st))
  end.

(** Lines 89-99, the body of the "New Chat" handler. *)
Definition reset_conversation (id : str) (st : state) : result state :=
  do old_chat <- the_chat id st;
  do fs1 <- save_to_history id old_chat (files st);
  let fresh := [system_message] in
  do fs2 <- save_chat id fresh fs1;
  Ok (State (Some (<[id := fresh]> (session st))) fs2).

(** Lines 131-134. *)
Definition append_user_message (id text : str) (st : state) : result state :=
  do c <- the_chat id st;
  let c' := c ++ [Message (lit "user") text] in
  do fs <- save_chat id c' (files st);
  Ok (State (Some (<[id := c']> (session st))) fs).

(** Lines 162-165. *)
Definition append_assistant_message (id text : str) (st : state) : result state :=
  do c <- the_chat id st;
  let c' := c ++ [Message (lit "assistant") text] in
  do fs <- save_chat id c' (files st);
  Ok (State (Some (<[id := c']> (session st))) fs).

(** Lines 130-165.  The request carries the role and content of every
    message of the conversation, the new user message included.  The user
    text is drawn (line 137) and, in the [except] branch, the error text
    (line 160). *)
Definition handle_user_message (id : str) (user_input : option str)
    (backend : chat -> stream) (st : state) : result state :=
  match user_input with
  | Some text =>
      if truthy text && truthy id then
        do st1 <- append_user_message id text st;
        do _ <- render text;
        do c <- the_chat id st1;
        let streamed_text := consume_stream (backend c) in
        do _ <- match failure (backend c) with
                | Some _ => render streamed_text
                | None => Ok tt
                end;
        append_assistant_message id streamed_text st1
      else Ok st
  | None => Ok st
  end.

Definition configured : bool :=
  match api_key with
  | Some k => truthy k
  | None => false
  end.

(** One run of the script.  [st.stop()] (line 21) and [st.rerun()] (line 99)
    end the run.  Creating the directory (line 31) touches neither the
    session nor a record; the history and the conversation are drawn (lines
    102-107 and 114-120) before the input is handled. *)
Definition script (ev : event) (st : state) : result state :=
  if negb configured then Ok st
  else
    let id := customer_id ev in
    do st1 <- (if truthy id then ensure_loaded id st else Ok st);
    if new_chat ev && truthy id then reset_conversation id st1
    else
      do _ <- (if truthy id then show_history id (files st1) else Ok tt);
      do _ <- (if truthy id then (do c <- the_chat id st1; show_chat c)
               else Ok tt);
      let user_input := if truthy id then chat_input ev else None in
      handle_user_message id user_input (completions ev) st1.

Definition mutate (id : str) (mu : mutation) (st : state) : result state :=
  match mu with
  | UserMessage t => append_user_message id t st
  | AssistantMessage t => append_assistant_message id t st
  end.

Fixpoint run_mutations (id : str) (mus : list mutation) (st : state)
  : result state :=
  match mus with
  | [] => Ok st
  | mu :: rest => do st' <- mutate id mu st; run_mutations id rest st'
  end.

End App.

(** ** Concrete inputs *)

(** The default of [SYSTEM_PROMPT] (lines 13-17). *)
Definition DEFAULT_SYSTEM_PROMPT : str :=
  lit "You are a friendly, concise customer support agent. If you do not know an answer, ask a clarifying question.".

Definition demo_id : str := lit "C1".

(** A conversation with an accent, an emoji, a quote, a backslash, a line
    break written as CR LF and a control character. *)
Definition demo_chat : chat :=
  [Message (lit "system") DEFAULT_SYSTEM_PROMPT;
   Message (lit "user") (lit "caf" ++ [0xE9; 32; 0x1F600; 34; 92; 13; 10; 1]);
   Message (lit "assistant") (lit "Bonjour")].

Definition demo_history : chat :=
  [Message (lit "user") (lit "Hello"); Message (lit "assistant") [0x4F60; 0x597D]].

Definition demo_history_bytes : bytes :=
  Eval vm_compute in
    match write_json Posix demo_history with
    | Ok b => b
    | _ => []
    end.

Definition demo_state : state :=
  State (Some {[ demo_id := demo_chat ]})
        {[ history_file Posix demo_id := demo_history_bytes ]}.

Definition fresh_state : state :=
  State (Some {[ demo_id := [Message (lit "system") DEFAULT_SYSTEM_PROMPT] ]}) ∅.

Definition demo_reply (_ : chat) : stream :=
  Stream [Some (lit "Hi"); None; Some (lit " there")] None.

Definition demo_outage (_ : chat) : stream :=
  Stream [Some (lit "Hi")] (Some (lit "Connection error.")).

Definition non_system (m : message) : Prop := role m <> lit "system".

(** *** Results of the operations on the concrete inputs *)

Definition value_or {A} (d : A) (r : result A) : A :=
  match r with
  | Ok a => a
  | _ => d
  end.

Definition demo_key : option str := Some (lit "sk-test").

Definition demo_saved : gmap str bytes :=
  Eval vm_compute in value_or ∅ (save_chat Posix (only_chat_dir Posix) demo_id demo_chat ∅).

Definition demo_archived : gmap str bytes :=
  Eval vm_compute in
    value_or ∅ (save_to_history Posix (only_chat_dir Posix) demo_id demo_chat (files demo_state)).

Definition demo_archived_twice : gmap str bytes :=
  Eval vm_compute in
    value_or ∅ (save_to_history Posix (only_chat_dir Posix) demo_id demo_history demo_archived).

Definition demo_loaded : state :=
  Eval vm_compute in
    value_or demo_state
      (ensure_loaded Posix DEFAULT_SYSTEM_PROMPT (lit "C2") demo_state).

Definition demo_after_reset : state :=
  Eval vm_compute in
    value_or demo_state
      (reset_conversation Posix (only_chat_dir Posix) DEFAULT_SYSTEM_PROMPT demo_id demo_state).

Definition demo_turn : event :=
  Event demo_id false (Some (lit "Hello")) demo_reply.

Definition demo_after_turn : state :=
  Eval vm_compute in
    value_or demo_state
      (script Posix (only_chat_dir Posix) demo_key DEFAULT_SYSTEM_PROMPT demo_turn demo_state).

Definition fresh_after_turn : state :=
  Eval vm_compute in
    value_or fresh_state
      (script Posix (only_chat_dir Posix) demo_key DEFAULT_SYSTEM_PROMPT demo_turn fresh_state).

Definition demo_idle : event := Event demo_id false None demo_reply.

Definition demo_after_idle : state :=
  Eval vm_compute in
    value_or fresh_state
      (script Posix (only_chat_dir Posix) demo_key DEFAULT_SYSTEM_PROMPT demo_idle (State None demo_saved)).

(** A state whose active record for [demo_id] is a text in which no JSON
    value starts and whose history record is not UTF-8. *)
Definition demo_corrupt : state :=
  State None {[ chat_file Posix demo_id := lit "corrupt";
                history_file Posix demo_id := [0xFF] ]}.

(** A customer ID with a separator: its files would lie in the directory
    [chats/customer_a], which does not exist. *)
Definition slash_id : str := lit "a/b".

Definition slash_state : state :=
  State (Some {[ slash_id := [Message (lit "system") DEFAULT_SYSTEM_PROMPT] ]}) ∅.

(** A conversation with a lone surrogate, as loaded from a record that
    holds it escaped. *)
Definition surrogate_chat : chat :=
  [Message (lit "system") DEFAULT_SYSTEM_PROMPT; Message (lit "user") [0xD800]].

Definition surrogate_state : state :=
  State (Some {[ demo_id := surrogate_chat ]}) ∅.

(** A history record that holds an escaped lone surrogate as its content. *)
Definition surrogate_record : bytes :=
  lit "[{" ++ [34] ++ lit "role" ++ [34] ++ lit ": " ++ [34] ++ lit "user"
  ++ [34] ++ lit ", " ++ [34] ++ lit "content" ++ [34] ++ lit ": " ++ [34]
  ++ lit "\ud800" ++ [34] ++ lit "}]".

(** * Properties *)

(** ** UTF-8 round trip *)

Lemma scalar_encode_char c :
  Utf8.scalar c = true -> exists b, Utf8.encode_char c = Some b.
Proof.
  unfold Utf8.scalar, Utf8.encode_char.
  intros [Hlt Hs%negb_true_iff]%andb_true_iff. rewrite Hlt, Hs.
  repeat (case_match; eauto).
Qed.

Lemma decode_encode_char c b rest :
  Utf8.encode_char c = Some b ->
  Utf8.decode (b ++ rest) = cons c <$> Utf8.decode rest.
Proof.
  unfold Utf8.encode_char.
  destruct (N.ltb_spec c 0x80) as [H1|H1].
  { intros [= <-]. simpl. destruct (N.ltb_spec c 128); [done|lia]. }
  destruct (N.ltb_spec c 0x800) as [H2|H2].
  { intros [= <-]. cbn [app Utf8.decode].
    destruct (N.ltb_spec (192 + c / 64) 128); [lia|].
    destruct (N.ltb_spec (192 + c / 64) 194); [lia|].
    destruct (N.ltb_spec (192 + c / 64) 224); [|lia].
    unfold Utf8.is_cont.
    destruct (N.leb_spec 128 (128 + c mod 64)); [|lia].
    destruct (N.ltb_spec (128 + c mod 64) 192); [|lia].
    cbn [andb]. do 2 f_equal. lia. }
  destruct (N.ltb_spec c 0x10000) as [H3|H3].
  { destruct (Utf8.is_surrogate c) eqn:Hs; [done|].
    intros [= <-]. cbn [app Utf8.decode].
    destruct (N.ltb_spec (224 + c / 4096) 128); [lia|].
    destruct (N.ltb_spec (224 + c / 4096) 194); [lia|].
    destruct (N.ltb_spec (224 + c / 4096) 224); [lia|].
    destruct (N.ltb_spec (224 + c / 4096) 240); [|lia].
    assert ((224 + c / 4096 - 224) * 4096 + (128 + (c / 64) mod 64 - 128) * 64
            + (128 + c mod 64 - 128) = c) as -> by lia.
    unfold Utf8.is_cont.
    destruct (N.leb_spec 128 (128 + (c / 64) mod 64)); [|lia].
    destruct (N.ltb_spec (128 + (c / 64) mod 64) 192); [|lia].
    destruct (N.leb_spec 128 (128 + c mod 64)); [|lia].
    destruct (N.ltb_spec (128 + c mod 64) 192); [|lia].
    destruct (N.leb_spec 2048 c); [|lia].
    rewrite Hs. done. }
  destruct (N.ltb_spec c 0x110000) as [H4|H4]; [|done].
  intros [= <-]. cbn [app Utf8.decode].
  destruct (N.ltb_spec (240 + c / 262144) 128); [lia|].
  destruct (N.ltb_spec (240 + c / 262144) 194); [lia|].
  destruct (N.ltb_spec (240 + c / 262144) 224); [lia|].
  destruct (N.ltb_spec (240 + c / 262144) 240); [lia|].
  destruct (N.ltb_spec (240 + c / 262144) 245); [|lia].
  assert ((240 + c / 262144 - 240) * 262144
          + (128 + (c / 4096) mod 64 - 128) * 4096
          + (128 + (c / 64) mod 64 - 128) * 64
          + (128 + c mod 64 - 128) = c) as -> by lia.
  unfold Utf8.is_cont.
  destruct (N.leb_spec 128 (128 + (c / 4096) mod 64)); [|lia].
  destruct (N.ltb_spec (128 + (c / 4096) mod 64) 192); [|lia].
  destruct (N.leb_spec 128 (128 + (c / 64) mod 64)); [|lia].
  destruct (N.ltb_spec (128 + (c / 64) mod 64) 192); [|lia].
  destruct (N.leb_spec 128 (128 + c mod 64)); [|lia].
  destruct (N.ltb_spec (128 + c mod 64) 192); [|lia].
  destruct (N.leb_spec 65536 c); [|lia].
  destruct (N.ltb_spec c 1114112); [|lia].
  done.
Qed.

Lemma decode_encode s b :
  Utf8.encode s = Some b -> Utf8.decode b = Some s.
Proof.
  revert b. induction s as [|c s IH]; intros b; simpl.
  - by intros [= <-].
  - destruct (Utf8.encode_char c) as [bc|] eqn:Hc; [|done].
    destruct (Utf8.encode s) as [bs|] eqn:Hs; [|done].
    intros [= <-]. rewrite (decode_encode_char _ _ _ Hc), (IH bs); done.
Qed.

Lemma encode_scalar s :
  forallb Utf8.scalar s = true -> exists b, Utf8.encode s = Some b.
Proof.
  induction s as [|c s IH]; simpl; [eauto|].
  intros [Hc [bs Hs]%IH]%andb_true_iff.
  destruct (scalar_encode_char c Hc) as [bc ->]. rewrite Hs. eauto.
Qed.

(** ** The JSON form on examples *)

Example dumps_two :
  Json.dumps [Message (lit "system") (lit "Be kind."); Message (lit "user") [10; 233]]
  = lit "[" ++ [10] ++ lit "  {" ++ [10]
    ++ lit "    " ++ [34] ++ lit "role" ++ [34] ++ lit ": "
    ++ [34] ++ lit "system" ++ [34] ++ lit "," ++ [10]
    ++ lit "    " ++ [34] ++ lit "content" ++ [34] ++ lit ": "
    ++ [34] ++ lit "Be kind." ++ [34] ++ [10]
    ++ lit "  }," ++ [10] ++ lit "  {" ++ [10]
    ++ lit "    " ++ [34] ++ lit "role" ++ [34] ++ lit ": "
    ++ [34] ++ lit "user" ++ [34] ++ lit "," ++ [10]
    ++ lit "    " ++ [34] ++ lit "content" ++ [34] ++ lit ": "
    ++ [34] ++ lit "\n" ++ [233] ++ [34] ++ [10]
    ++ lit "  }" ++ [10] ++ lit "]".
Proof. reflexivity. Qed.

Example loads_dumps_two :
  Json.loads (Json.dumps [Message (lit "system") (lit "Be kind.");
                          Message (lit "user") [10; 233; 1; 34; 92; 55357]])
  = Ok [Message (lit "system") (lit "Be kind.");
        Message (lit "user") [10; 233; 1; 34; 92; 55357]].
Proof. reflexivity. Qed.

(** An escaped surrogate pair in a stored document is one code point; an
    escaped lone surrogate is loaded as it is. *)
Example loads_surrogates :
  Json.loads (lit "[{" ++ [34] ++ lit "role" ++ [34] ++ lit ":" ++ [34]
              ++ lit "\ud83d\ude00\ud83d" ++ [34] ++ lit ","
              ++ [34] ++ lit "content" ++ [34] ++ lit ":" ++ [34] ++ [34]
              ++ lit "}]")
  = Ok [Message [0x1F600; 0xD83D] []].
Proof. reflexivity. Qed.

(** A record of another member order is JSON that [json.load] loads; a text
    in which no value starts is not. *)
Example loads_verdicts :
  Json.loads (lit "[{" ++ [34] ++ lit "content" ++ [34] ++ lit ":" ++ [34]
              ++ lit "hi" ++ [34] ++ lit "," ++ [34] ++ lit "role" ++ [34]
              ++ lit ":" ++ [34] ++ lit "user" ++ [34] ++ lit "}]")
  = Beyond
  /\ Json.loads (lit "corrupt") = Raise JSONDecodeError
  /\ Json.loads (lit "  ") = Raise JSONDecodeError
  /\ Json.loads [] = Raise JSONDecodeError
  /\ Json.loads (lit "[]") = Ok [].
Proof. repeat split; reflexivity. Qed.

(** ** Round trip of the JSON form *)

(** Replaces the literals of the goal by their code points. *)
Ltac norm_lit :=
  repeat match goal with
         | |- context [lit ?s] =>
             let v := eval vm_compute in (lit s) in change (lit s) with v
         end.

Section JsonRoundTrip.
Import Json.
Local Arguments encode_basestring : simpl never.
Local Arguments dump_message : simpl never.

Lemma scan_control c t :
  c < 32 -> scan_string (escape_char c ++ t) = push c (scan_string t).
Proof.
  intros H. destruct c as [|p]; [reflexivity|].
  do 5 (destruct p as [p|p|]; try lia; try reflexivity).
Qed.

Lemma scan_escape c t :
  scan_string (escape_char c ++ t) = push c (scan_string t).
Proof.
  destruct (N.ltb_spec c 32) as [Hc|Hc]; [by apply scan_control|].
  unfold escape_char.
  destruct (N.eqb_spec c 34) as [->|H34]; [reflexivity|].
  destruct (N.eqb_spec c 92) as [->|H92]; [reflexivity|].
  destruct (N.eqb_spec c 10); [lia|]. destruct (N.eqb_spec c 13); [lia|].
  destruct (N.eqb_spec c 9); [lia|]. destruct (N.eqb_spec c 8); [lia|].
  destruct (N.eqb_spec c 12); [lia|]. destruct (N.ltb_spec c 32); [lia|].
  cbn [app scan_string].
  destruct (N.eqb_spec c 34); [lia|]. destruct (N.eqb_spec c 92); [lia|].
  destruct (N.ltb_spec c 32); [lia|]. done.
Qed.

Lemma scan_string_escaped s rest :
  scan_string (flat_map escape_char s ++ 34 :: rest) = Some (s, rest).
Proof.
  induction s as [|c s IH]; [reflexivity|].
  cbn [flat_map]. rewrite <- app_assoc, scan_escape, IH. done.
Qed.

Lemma parse_string_encoded s rest :
  parse_string (encode_basestring s ++ rest) = Some (s, rest).
Proof.
  unfold encode_basestring, parse_string. cbn [app expect].
  rewrite <- app_assoc. cbn [app N.eqb Pos.eqb]. apply scan_string_escaped.
Qed.

Lemma skip_ws_encoded s rest :
  skip_ws (encode_basestring s ++ rest) = encode_basestring s ++ rest.
Proof. reflexivity. Qed.

Lemma parse_member_encoded key v rest :
  parse_member key
    (skip_ws (encode_basestring key ++ 58 :: 32 :: encode_basestring v ++ rest))
  = Some (v, rest).
Proof.
  rewrite skip_ws_encoded. unfold parse_member.
  rewrite parse_string_encoded, bool_decide_eq_true_2 by done.
  cbn. apply parse_string_encoded.
Qed.

Lemma parse_message_dumped m rest :
  parse_message (dump_message m ++ rest) = Some (m, rest).
Proof.
  destruct m as [r c]. unfold parse_message, dump_message.
  rewrite <- !app_assoc. norm_lit. cbn.
  rewrite (parse_member_encoded [114; 111; 108; 101]). cbn.
  rewrite (parse_member_encoded [99; 111; 110; 116; 101; 110; 116]). cbn. done.
Qed.

Lemma dump_message_head m : exists x, dump_message m = 123 :: x.
Proof. unfold dump_message. norm_lit. cbn [app]. eauto. Qed.

Lemma dump_items_head m ms : exists x, dump_items (m :: ms) = 123 :: x.
Proof.
  destruct (dump_message_head m) as [x Hx].
  destruct ms; cbn [dump_items]; rewrite Hx; cbn [app]; eauto.
Qed.

Lemma skip_ws_items m ms rest :
  skip_ws (dump_items (m :: ms) ++ rest) = dump_items (m :: ms) ++ rest.
Proof. destruct (dump_items_head m ms) as [x ->]. reflexivity. Qed.

Lemma dump_items_cons m m' ms :
  dump_items (m :: m' :: ms)
  = dump_message m ++ 44 :: 10 :: 32 :: 32 :: dump_items (m' :: ms).
Proof. reflexivity. Qed.

Local Arguments dump_items : simpl never.

Lemma parse_items_dumped m ms rest fuel :
  (length ms < fuel)%nat ->
  parse_items fuel (dump_items (m :: ms) ++ 10 :: 93 :: rest)
  = Some (m :: ms, rest).
Proof.
  revert m fuel. induction ms as [|m' ms IH]; intros m fuel Hf.
  - destruct fuel as [|fuel]; [simpl in Hf; lia|].
    change (dump_items [m]) with (dump_message m).
    cbn [parse_items]. rewrite parse_message_dumped. done.
  - destruct fuel as [|fuel]; [simpl in Hf; lia|].
    rewrite dump_items_cons, <- app_assoc. cbn [parse_items].
    rewrite parse_message_dumped. cbn.
    rewrite skip_ws_items, IH by (simpl in Hf; lia). done.
Qed.

Lemma length_dump_items ms : (length ms <= length (dump_items ms))%nat.
Proof.
  induction ms as [|m [|m' ms] IH]; [cbn; lia| |].
  - destruct (dump_items_head m []) as [x ->]. cbn. lia.
  - rewrite dump_items_cons, length_app. cbn in *. lia.
Qed.

Lemma parse_chat_dumps ms : parse_chat (dumps ms) = Some ms.
Proof.
  destruct ms as [|m ms]; [reflexivity|].
  unfold dumps, parse_chat. norm_lit. cbn [app N.eqb Pos.eqb skip_ws is_ws orb].
  unfold parse_array. cbn [expect N.eqb Pos.eqb skip_ws is_ws orb].
  destruct (dump_items_head m ms) as [x Hx].
  rewrite Hx at 1. cbn [app N.eqb Pos.eqb skip_ws is_ws orb].
  change (123 :: x ++ [10; 93]) with ((123 :: x) ++ [10; 93]). rewrite <- Hx.
  rewrite parse_items_dumped; [done|].
  pose proof (length_dump_items (m :: ms)) as Hlen.
  cbn [length] in *. rewrite length_app. lia.
Qed.

Lemma loads_dumps ms : loads (dumps ms) = Ok ms.
Proof.
  unfold loads. rewrite parse_chat_dumps.
  destruct ms as [|m ms]; [reflexivity|]. unfold dumps. norm_lit. reflexivity.
Qed.

End JsonRoundTrip.

(** ** The decoder never runs out of fuel

    Every element of an array consumes at least its opening brace, so the
    length of the text bounds the number of elements: the result of
    [parse_items] does not depend on the fuel beyond that bound. *)

Section ParserFuel.
Import Json.

Lemma skip_ws_length s : (length (skip_ws s) <= length s)%nat.
Proof.
  induction s as [|c s IH]; cbn [skip_ws length]; [lia|].
  destruct (is_ws c); cbn [length]; lia.
Qed.

Lemma expect_length c s t : expect c s = Some t -> length s = S (length t).
Proof.
  destruct s as [|x s]; cbn [expect]; [done|].
  destruct (x =? c); [|done]. by intros [= ->].
Qed.

Lemma push_inv c r a rest :
  push c r = Some (a, rest) -> exists a', r = Some (a', rest).
Proof. destruct r as [[a' r']|]; cbn; [|done]. intros [= <- <-]. eauto. Qed.

Lemma scan_string_length n s a r :
  (length s <= n)%nat -> scan_string s = Some (a, r) ->
  (length r < length s)%nat.
Proof.
  revert s a r. induction n as [|n IH]; intros s a r Hn.
  - destruct s; [done|cbn in Hn; lia].
  - destruct s as [|c t]; [done|]. cbn [scan_string]. intros H.
    repeat case_match; simplify_eq; cbn [length] in *; try lia;
      (apply push_inv in H as [a' H]; apply IH in H; cbn [length] in *; lia).
Qed.

Lemma parse_string_length s a r :
  parse_string s = Some (a, r) -> (length r < length s)%nat.
Proof.
  unfold parse_string. destruct (expect 34 s) as [t|] eqn:He; [|done].
  apply expect_length in He. intros H.
  apply (scan_string_length (length t)) in H; lia.
Qed.

Lemma parse_member_length key s v r :
  parse_member key s = Some (v, r) -> (length r < length s)%nat.
Proof.
  unfold parse_member.
  destruct (parse_string s) as [[k s1]|] eqn:H1; [|done].
  case_bool_decide; [|done].
  destruct (expect 58 (skip_ws s1)) as [s2|] eqn:H2; [|done].
  intros H3. apply parse_string_length in H1, H3. apply expect_length in H2.
  pose proof (skip_ws_length s1). pose proof (skip_ws_length s2). lia.
Qed.

Lemma parse_message_length s m r :
  parse_message s = Some (m, r) -> (length r < length s)%nat.
Proof.
  unfold parse_message.
  destruct (expect 123 s) as [s1|] eqn:H1; [|done].
  destruct (parse_member _ (skip_ws s1)) as [[ro s2]|] eqn:H2; [|done].
  destruct (expect 44 (skip_ws s2)) as [s3|] eqn:H3; [|done].
  destruct (parse_member _ (skip_ws s3)) as [[co s4]|] eqn:H4; [|done].
  destruct (expect 125 (skip_ws s4)) as [s5|] eqn:H5; [|done].
  intros [= <- <-].
  apply expect_length in H1, H3, H5. apply parse_member_length in H2, H4.
  pose proof (skip_ws_length s1). pose proof (skip_ws_length s2).
  pose proof (skip_ws_length s3). pose proof (skip_ws_length s4). lia.
Qed.

Lemma parse_items_fuel fuel fuel' s :
  (length s < fuel)%nat -> (length s < fuel')%nat ->
  parse_items fuel s = parse_items fuel' s.
Proof.
  revert fuel' s. induction fuel as [|fuel IH]; intros fuel' s Hf Hf'; [lia|].
  destruct fuel' as [|fuel']; [lia|]. cbn [parse_items].
  destruct (parse_message s) as [[m s1]|] eqn:Hm; [|done].
  apply parse_message_length in Hm.
  destruct (skip_ws s1) as [|c t] eqn:Hs; [done|].
  destruct (c =? 93); [done|]. destruct (c =? 44); [|done].
  pose proof (skip_ws_length s1) as H1. pose proof (skip_ws_length t) as H2.
  rewrite Hs in H1. cbn [length] in H1.
  rewrite (IH fuel' (skip_ws t)) by lia. done.
Qed.

End ParserFuel.

Section TextRoundTrip.
Import Json.

Lemma plain_escape_char c :
  Utf8.scalar c = true -> forallb plain (escape_char c) = true.
Proof.
  intros Hc. destruct (N.ltb_spec c 32) as [Hlt|Hge].
  - clear Hc. destruct c as [|p]; [reflexivity|].
    do 5 (destruct p as [p|p|]; try lia; try reflexivity).
  - unfold escape_char.
    destruct (N.eqb_spec c 34); [reflexivity|].
    destruct (N.eqb_spec c 92); [reflexivity|].
    destruct (N.eqb_spec c 10); [lia|]. destruct (N.eqb_spec c 13); [lia|].
    destruct (N.eqb_spec c 9); [lia|]. destruct (N.eqb_spec c 8); [lia|].
    destruct (N.eqb_spec c 12); [lia|]. destruct (N.ltb_spec c 32); [lia|].
    cbn [forallb]. unfold plain. rewrite Hc.
    destruct (N.eqb_spec c 13); [lia|]. reflexivity.
Qed.

Lemma forallb_app_true {A} (f : A -> bool) l1 l2 :
  forallb f l1 = true -> forallb f l2 = true -> forallb f (l1 ++ l2) = true.
Proof. intros H1 H2. rewrite forallb_app, H1, H2. done. Qed.

Lemma plain_encode_basestring s :
  unicode_text s = true -> forallb plain (encode_basestring s) = true.
Proof.
  intros Hs. unfold encode_basestring.
  apply forallb_app_true; [reflexivity|]. apply forallb_app_true; [|reflexivity].
  induction s as [|c s IH]; [reflexivity|].
  cbn [unicode_text forallb] in Hs. apply andb_true_iff in Hs as [Hc Hs].
  cbn [flat_map]. apply forallb_app_true; [by apply plain_escape_char|by apply IH].
Qed.

Lemma plain_dump_message m :
  unicode_message m = true -> forallb plain (dump_message m) = true.
Proof.
  intros [Hr Hc]%andb_true_iff. unfold dump_message.
  repeat (apply forallb_app_true;
          [first [reflexivity | by apply plain_encode_basestring]|]).
  reflexivity.
Qed.

Lemma plain_dump_items ms :
  unicode_chat ms = true -> forallb plain (dump_items ms) = true.
Proof.
  induction ms as [|m [|m' ms] IH]; [reflexivity| |].
  - intros [Hm _]%andb_true_iff. by apply plain_dump_message.
  - intros [Hm Hms]%andb_true_iff. rewrite dump_items_cons.
    apply forallb_app_true; [by apply plain_dump_message|].
    cbn [forallb]. rewrite (IH Hms). reflexivity.
Qed.

Lemma plain_dumps ms :
  unicode_chat ms = true -> forallb plain (dumps ms) = true.
Proof.
  intros Hms. destruct ms as [|m ms]; [reflexivity|]. unfold dumps.
  repeat (apply forallb_app_true; [first [reflexivity | by apply plain_dump_items]|]).
  reflexivity.
Qed.

Lemma scalar_write_newlines os s :
  forallb plain s = true -> forallb Utf8.scalar (write_newlines os s) = true.
Proof.
  induction s as [|c s IH]; [reflexivity|].
  cbn [forallb]. intros [[Hc _]%andb_true_iff Hs]%andb_true_iff.
  cbn [write_newlines flat_map]. apply forallb_app_true; [|by apply IH].
  destruct (c =? 10); [by destruct os|]. cbn [forallb]. by rewrite Hc.
Qed.

Lemma universal_write_newlines os s :
  forallb plain s = true -> universal_newlines (write_newlines os s) = s.
Proof.
  induction s as [|c s IH]; [reflexivity|].
  cbn [forallb]. intros [[_ Hc%negb_true_iff]%andb_true_iff Hs]%andb_true_iff.
  cbn [write_newlines flat_map].
  destruct (N.eqb_spec c 10) as [->|Hne].
  - destruct os; cbn; f_equal; by apply IH.
  - cbn [app universal_newlines]. rewrite Hc. f_equal. by apply IH.
Qed.

End TextRoundTrip.

(** ** When a file can be written *)

Section WriteFacts.
Import Json.

Lemma encode_char_not_scalar x :
  Utf8.scalar x = false -> Utf8.encode_char x = None.
Proof.
  unfold Utf8.scalar, Utf8.encode_char, Utf8.is_surrogate. intros H.
  destruct (N.ltb_spec x 0x80); [exfalso|].
  { destruct (N.ltb_spec x 0x110000); [|lia].
    destruct (N.leb_spec 0xD800 x); [lia|]. done. }
  destruct (N.ltb_spec x 0x800); [exfalso|].
  { destruct (N.ltb_spec x 0x110000); [|lia].
    destruct (N.leb_spec 0xD800 x); [lia|]. done. }
  destruct (N.ltb_spec x 0x10000).
  - destruct (N.ltb_spec x 0x110000); [|lia].
    destruct (N.leb_spec 0xD800 x); [|done].
    destruct (N.leb_spec x 0xDFFF); [done|done].
  - destruct (N.ltb_spec x 0x110000); [|done]. exfalso.
    destruct (N.leb_spec 0xD800 x); [|lia].
    destruct (N.leb_spec x 0xDFFF); [lia|done].
Qed.

Lemma encode_In x s :
  In x s -> Utf8.encode_char x = None -> Utf8.encode s = None.
Proof.
  induction s as [|c s IH]; [done|]. intros [->|Hin] Hx; cbn [Utf8.encode].
  - by rewrite Hx.
  - rewrite (IH Hin Hx). by destruct (Utf8.encode_char c).
Qed.

Lemma not_scalar_large x : Utf8.scalar x = false -> 0xD800 <= x.
Proof.
  unfold Utf8.scalar, Utf8.is_surrogate.
  destruct (N.ltb_spec x 0x110000); [|lia].
  destruct (N.leb_spec 0xD800 x); [lia|done].
Qed.

Lemma escape_char_not_scalar x : Utf8.scalar x = false -> escape_char x = [x].
Proof.
  intros H%not_scalar_large. unfold escape_char.
  destruct (N.eqb_spec x 34); [lia|]. destruct (N.eqb_spec x 92); [lia|].
  destruct (N.eqb_spec x 10); [lia|]. destruct (N.eqb_spec x 13); [lia|].
  destruct (N.eqb_spec x 9); [lia|]. destruct (N.eqb_spec x 8); [lia|].
  destruct (N.eqb_spec x 12); [lia|]. destruct (N.ltb_spec x 32); [lia|done].
Qed.

Lemma In_encode_basestring x s :
  In x s -> Utf8.scalar x = false -> In x (encode_basestring s).
Proof.
  intros Hin Hx. unfold encode_basestring.
  apply in_or_app. right. apply in_or_app. left.
  apply in_flat_map. exists x. split; [done|].
  rewrite escape_char_not_scalar by done. by left.
Qed.

Lemma In_dump_message x m :
  In x (role m) \/ In x (content m) -> Utf8.scalar x = false ->
  In x (dump_message m).
Proof.
  intros Hin Hx. unfold dump_message. rewrite !in_app_iff.
  destruct Hin as [Hin|Hin].
  - do 5 right. left. by apply In_encode_basestring.
  - do 11 right. left. by apply In_encode_basestring.
Qed.

Lemma In_dump_items x m ms :
  In m ms -> In x (dump_message m) -> In x (dump_items ms).
Proof.
  intros Hm Hx. induction ms as [|m0 [|m1 ms] IH]; [done| |].
  - destruct Hm as [->|[]]. done.
  - rewrite dump_items_cons. apply in_or_app.
    destruct Hm as [->|Hm]; [by left|].
    right. do 4 right. by apply IH.
Qed.

Lemma In_dumps x m ms :
  In m ms -> In x (dump_message m) -> In x (dumps ms).
Proof.
  intros Hm Hx. destruct ms as [|m0 ms]; [done|]. unfold dumps.
  rewrite !in_app_iff. do 3 right. left. by apply (In_dump_items x m).
Qed.

Lemma In_write_newlines os x s :
  In x s -> x <> 10 -> In x (write_newlines os s).
Proof.
  intros Hin Hx. apply in_flat_map. exists x. split; [done|].
  destruct (N.eqb_spec x 10); [done|]. by left.
Qed.

Lemma forallb_false_In {A} (f : A -> bool) l :
  forallb f l = false -> exists x, In x l /\ f x = false.
Proof.
  induction l as [|a l IH]; [done|]. cbn [forallb].
  destruct (f a) eqn:Ha; cbn [andb].
  - intros (x & Hin & Hx)%IH. exists x. split; [by right|done].
  - intros _. exists a. split; [by left|done].
Qed.

Lemma write_json_not_unicode os c :
  unicode_chat c = false -> write_json os c = Raise UnicodeEncodeError.
Proof.
  intros (m & Hm & Hu)%forallb_false_In.
  assert (Hx : exists x, (In x (role m) \/ In x (content m))
                         /\ Utf8.scalar x = false).
  { unfold unicode_message in Hu. apply andb_false_iff in Hu as [Hu|Hu];
      apply forallb_false_In in Hu as (x & Hin & Hx); eauto. }
  destruct Hx as (x & Hin & Hx).
  unfold write_json, write_text.
  rewrite (encode_In x); [done| |by apply encode_char_not_scalar].
  apply In_write_newlines.
  - apply (In_dumps x m); [done|]. by apply In_dump_message.
  - apply not_scalar_large in Hx. lia.
Qed.

Lemma write_json_ok_unicode os c b :
  write_json os c = Ok b -> unicode_chat c = true.
Proof.
  intros H. destruct (unicode_chat c) eqn:Hu; [done|].
  by rewrite write_json_not_unicode in H.
Qed.

End WriteFacts.

(** ** The store and the session *)

Section Facts.

Variable os : platform.
Variable open_error : str -> option exn.
Variable api_key : option str.
Variable system_prompt : str.

Local Abbreviation path_join := (path_join os).
Local Abbreviation chat_file := (chat_file os).
Local Abbreviation history_file := (history_file os).
Local Abbreviation write_json := (write_json os).
Local Abbreviation system_message := (system_message system_prompt).
Local Abbreviation load_chat := (load_chat os system_prompt).
Local Abbreviation open_for_writing := (open_for_writing open_error).
Local Abbreviation save_chat := (save_chat os open_error).
Local Abbreviation save_to_history := (save_to_history os open_error).
Local Abbreviation load_history := (load_history os).
Local Abbreviation show_history := (show_history os).
Local Abbreviation ensure_loaded := (ensure_loaded os system_prompt).
Local Abbreviation reset_conversation :=
  (reset_conversation os open_error system_prompt).
Local Abbreviation append_user_message := (append_user_message os open_error).
Local Abbreviation append_assistant_message :=
  (append_assistant_message os open_error).
Local Abbreviation handle_user_message := (handle_user_message os open_error).
Local Abbreviation configured := (configured api_key).
Local Abbreviation script := (script os open_error api_key system_prompt).
Local Abbreviation mutate := (mutate os open_error).
Local Abbreviation run_mutations := (run_mutations os open_error).

Lemma write_read_json c :
  unicode_chat c = true ->
  exists b, write_json c = Ok b /\ read_json b = Ok c.
Proof.
  intros Hc. pose proof (plain_dumps c Hc) as Hp.
  destruct (encode_scalar _ (scalar_write_newlines os _ Hp)) as [b Hb].
  exists b. unfold write_json, write_text, read_json, read_text.
  rewrite Hb. split; [done|]. cbn [or_raise].
  rewrite (decode_encode _ _ Hb). cbn [or_raise bind].
  rewrite universal_write_newlines, loads_dumps by done. done.
Qed.

Lemma write_json_read_json c b :
  write_json c = Ok b -> read_json b = Ok c.
Proof.
  intros H. pose proof (write_json_ok_unicode os c b H) as Hu.
  destruct (write_read_json c Hu) as (b' & Hw & Hr). congruence.
Qed.

Lemma chat_file_history_file id : chat_file id <> history_file id.
Proof.
  unfold chat_file, history_file, path_join. intros H.
  apply (f_equal length) in H. rewrite !length_app in H. cbn in H. lia.
Qed.

Lemma archive_filter (c history : chat) :
  fold_left (fun history msg =>
               if bool_decide (role msg <> lit "system")
               then history ++ [msg] else history)
            c history
  = history ++ filter (fun m => role m <> lit "system") c.
Proof.
  revert history. induction c as [|m c IH]; intros history; cbn [fold_left].
  - by rewrite app_nil_r.
  - rewrite IH, filter_cons.
    case_bool_decide; case_decide; try done. by rewrite <- app_assoc.
Qed.

Lemma unicode_chat_app c1 c2 :
  unicode_chat (c1 ++ c2) = unicode_chat c1 && unicode_chat c2.
Proof. apply forallb_app. Qed.

Lemma unicode_chat_filter (P : message -> Prop) `{!forall m, Decision (P m)} c :
  unicode_chat c = true -> unicode_chat (filter P c) = true.
Proof.
  induction c as [|m c IH]; [done|]. cbn [unicode_chat forallb].
  intros [Hm Hc]%andb_true_iff. rewrite filter_cons. case_decide; [|by apply IH].
  cbn [unicode_chat forallb]. rewrite Hm. by apply IH.
Qed.

Lemma unicode_chat_snoc c m :
  unicode_chat c = true ->
  unicode_text (role m) = true ->
  unicode_text (content m) = true ->
  unicode_chat (c ++ [m]) = true.
Proof.
  intros Hc Hr Hm. rewrite unicode_chat_app, Hc. cbn [unicode_chat forallb andb].
  unfold unicode_message. by rewrite Hr, Hm.
Qed.

Lemma the_chat_set id c chats fs :
  the_chat id (State (Some (<[id := c]> chats)) fs) = Ok c.
Proof. unfold the_chat. cbn. by rewrite lookup_insert_eq. Qed.

Lemma the_chat_session id st c :
  the_chat id st = Ok c -> session st !! id = Some c.
Proof.
  unfold the_chat, session. destruct (customer_chats st) as [chats|]; [|done].
  cbn. by destruct (chats !! id); intros [= ->].
Qed.

Lemma stored_load_history id fs h :
  stored fs (history_file id) h -> load_history id fs = Ok (Some h).
Proof. intros (b & Hb & Hr). unfold load_history. by rewrite Hb, Hr. Qed.

Lemma stored_load_chat id fs c :
  stored fs (chat_file id) c -> load_chat id fs = Ok c.
Proof. intros (b & Hb & Hr). unfold load_chat. by rewrite Hb. Qed.

Lemma stored_frame fs fs' path c :
  fs' !! path = fs !! path -> stored fs path c -> stored fs' path c.
Proof. intros Heq (b & Hb & Hr). exists b. by rewrite Heq. Qed.

Lemma consume_chunks parts text :
  fold_left (fun text d => text ++ delta_or_empty d) parts text
  = text ++ concat (map (default []) parts).
Proof.
  revert text. induction parts as [|d parts IH]; intros text; cbn [fold_left].
  - by rewrite app_nil_r.
  - rewrite IH, <- app_assoc. do 2 f_equal. by destruct d as [[|]|].
Qed.

Lemma chat_file_of_history_id_eq id :
  chat_file (id ++ lit "_history") = history_file id.
Proof.
  unfold chat_file, history_file, path_join. by rewrite <- !app_assoc.
Qed.

Lemma bind_ok {A B} (r : result A) (k : A -> result B) b :
  bind r k = Ok b -> exists a, r = Ok a /\ k a = Ok b.
Proof. destruct r; cbn; [eauto|done|done]. Qed.

Lemma open_for_writing_ok path :
  open_for_writing path = Ok tt <-> open_error path = None.
Proof.
  unfold open_for_writing. destruct (open_error path); split; done.
Qed.

Lemma chat_file_inj a b : chat_file a = chat_file b -> a = b.
Proof.
  unfold chat_file, path_join. intros H.
  do 3 apply app_inv_head in H. by apply app_inv_tail in H.
Qed.

Lemma history_file_inj a b : history_file a = history_file b -> a = b.
Proof.
  unfold history_file, path_join. intros H.
  do 3 apply app_inv_head in H. by apply app_inv_tail in H.
Qed.

Lemma chat_file_history_file_eq a b :
  chat_file a = history_file b -> a = b ++ lit "_history".
Proof.
  rewrite <- chat_file_of_history_id_eq. apply chat_file_inj.
Qed.

Lemma session_the_chat id st c :
  session st !! id = Some c -> the_chat id st = Ok c.
Proof.
  unfold session, the_chat. destruct (customer_chats st) as [chats|]; cbn.
  - by intros ->.
  - by rewrite lookup_empty.
Qed.

(** *** The blocks of a run succeed when the files can be written *)

Lemma save_chat_stored id c fs :
  open_error (chat_file id) = None ->
  unicode_chat c = true ->
  exists fs', save_chat id c fs = Ok fs'
    /\ stored fs' (chat_file id) c
    /\ forall p, p <> chat_file id -> fs' !! p = fs !! p.
Proof.
  intros Ho Hc. destruct (write_read_json c Hc) as (b & Hw & Hr).
  exists (<[chat_file id := b]> fs). unfold save_chat, open_for_writing.
  rewrite Ho. cbn [bind]. rewrite Hw.
  split; [done|]. split.
  - exists b. by rewrite lookup_insert_eq.
  - intros p Hp. by rewrite lookup_insert_ne.
Qed.

Lemma save_to_history_intro id c fs oh b :
  open_error (history_file id) = None ->
  load_history id fs = Ok oh ->
  write_json (default [] oh ++ filter (fun m => role m <> lit "system") c) = Ok b ->
  save_to_history id c fs = Ok (<[history_file id := b]> fs).
Proof.
  unfold save_to_history, load_history, open_for_writing. intros Ho Hl Hw.
  rewrite Ho. destruct (fs !! history_file id) as [b0|].
  - destruct (read_json b0) as [h| |]; cbn [bind] in *; [|done..].
    injection Hl as <-. rewrite archive_filter.
    change (default [] (Some h)) with h in Hw. by rewrite Hw.
  - injection Hl as <-. cbn [bind]. rewrite archive_filter.
    change (default [] (@None chat)) with (@nil message) in Hw. by rewrite Hw.
Qed.

Lemma save_to_history_stored id c fs oh :
  open_error (history_file id) = None ->
  load_history id fs = Ok oh ->
  unicode_chat (default [] oh) = true ->
  unicode_chat (filter (fun m => role m <> lit "system") c) = true ->
  exists fs', save_to_history id c fs = Ok fs'
    /\ stored fs' (history_file id)
         (default [] oh ++ filter (fun m => role m <> lit "system") c)
    /\ forall p, p <> history_file id -> fs' !! p = fs !! p.
Proof.
  intros Ho Hload Hh Hc.
  set (h' := default [] oh ++ filter (fun m => role m <> lit "system") c).
  assert (Hh' : unicode_chat h' = true).
  { unfold h'. by rewrite unicode_chat_app, Hh, Hc. }
  destruct (write_read_json h' Hh') as (b & Hw & Hr).
  exists (<[history_file id := b]> fs).
  split; [by apply (save_to_history_intro id c fs oh)|]. split.
  - exists b. by rewrite lookup_insert_eq.
  - intros p Hp. by rewrite lookup_insert_ne.
Qed.

Lemma mutate_ok id mu st c :
  open_error (chat_file id) = None ->
  the_chat id st = Ok c ->
  unicode_chat c = true ->
  unicode_text (mutation_text mu) = true ->
  exists st', mutate id mu st = Ok st'
    /\ the_chat id st' = Ok (c ++ [mutation_message mu])
    /\ stored (files st') (chat_file id) (c ++ [mutation_message mu]).
Proof.
  intros Ho Hc Hu Ht.
  assert (Hu' : unicode_chat (c ++ [mutation_message mu]) = true).
  { by destruct mu; apply unicode_chat_snoc. }
  destruct (save_chat_stored id _ (files st) Ho Hu') as (fs' & Hs & Hst & _).
  destruct mu; cbn [mutate mutation_message] in *;
    unfold append_user_message, append_assistant_message;
    rewrite Hc; cbn [bind]; rewrite Hs; cbn [bind];
    (eexists; split; [done|]); by rewrite the_chat_set.
Qed.

Lemma run_mutations_ok id mus st c :
  open_error (chat_file id) = None ->
  the_chat id st = Ok c ->
  unicode_chat c = true ->
  forallb (fun mu => unicode_text (mutation_text mu)) mus = true ->
  exists st', run_mutations id mus st = Ok st'
    /\ the_chat id st' = Ok (c ++ map mutation_message mus)
    /\ (mus <> [] ->
        stored (files st') (chat_file id) (c ++ map mutation_message mus)).
Proof.
  intros Ho. revert st c. induction mus as [|mu mus IH]; intros st c Hc Hu Hmus.
  - exists st. rewrite app_nil_r. done.
  - cbn [forallb] in Hmus. apply andb_true_iff in Hmus as [Hmu Hmus].
    destruct (mutate_ok id mu st c Ho Hc Hu Hmu) as (st1 & Hm & Hc1 & Hs1).
    assert (Hu1 : unicode_chat (c ++ [mutation_message mu]) = true).
    { by destruct mu; apply unicode_chat_snoc. }
    destruct (IH st1 _ Hc1 Hu1 Hmus) as (st' & Hr & Hc' & Hs').
    exists st'. cbn [run_mutations map]. rewrite Hm. cbn [bind].
    rewrite <- app_assoc in Hc', Hs'. cbn [app] in Hc', Hs'.
    split; [done|]. split; [done|]. intros _.
    destruct mus as [|mu' mus]; [|by apply Hs'].
    cbn in Hr. by injection Hr as <-.
Qed.

Lemma handle_user_message_ok id text backend st c :
  open_error (chat_file id) = None ->
  the_chat id st = Ok c ->
  truthy text = true ->
  truthy id = true ->
  unicode_chat c = true ->
  unicode_text text = true ->
  unicode_text (consume_stream (backend (c ++ [Message (lit "user") text]))) = true ->
  let reply := consume_stream (backend (c ++ [Message (lit "user") text])) in
  let c' := c ++ [Message (lit "user") text; Message (lit "assistant") reply] in
  exists st', handle_user_message id (Some text) backend st = Ok st'
    /\ the_chat id st' = Ok c'
    /\ stored (files st') (chat_file id) c'.
Proof.
  intros Ho Hc Ht Hid Hu Hut Hur. cbn zeta.
  set (reply := consume_stream (backend (c ++ [Message (lit "user") text]))) in *.
  destruct (mutate_ok id (UserMessage text) st c Ho Hc Hu Hut)
    as (st1 & H1 & Hc1 & _).
  assert (Hu1 : unicode_chat (c ++ [Message (lit "user") text]) = true)
    by (by apply unicode_chat_snoc).
  destruct (mutate_ok id (AssistantMessage reply) st1 _ Ho Hc1 Hu1 Hur)
    as (st' & H2 & Hc2 & Hs2).
  cbn [mutate mutation_message] in *. rewrite <- app_assoc in Hc2, Hs2.
  exists st'. unfold handle_user_message. rewrite Ht, Hid. cbn [andb].
  rewrite H1. cbn [bind]. unfold render at 1. rewrite Hut. cbn [bind].
  rewrite Hc1. cbn [bind]. fold reply.
  assert (Hdraw : match failure (backend (c ++ [Message (lit "user") text])) with
                  | Some _ => render reply
                  | None => Ok tt
                  end = Ok tt).
  { destruct (failure _); [|done]. unfold render. by rewrite Hur. }
  rewrite Hdraw. cbn [bind]. by rewrite H2.
Qed.

Lemma reset_conversation_ok id st old oh :
  open_error (history_file id) = None ->
  open_error (chat_file id) = None ->
  the_chat id st = Ok old ->
  load_history id (files st) = Ok oh ->
  unicode_chat (default [] oh) = true ->
  unicode_chat (filter (fun m => role m <> lit "system") old) = true ->
  unicode_text system_prompt = true ->
  exists st', reset_conversation id st = Ok st'
    /\ the_chat id st' = Ok [Message (lit "system") system_prompt]
    /\ stored (files st') (chat_file id) [Message (lit "system") system_prompt]
    /\ load_history id (files st')
       = Ok (Some (default [] oh ++ filter (fun m => role m <> lit "system") old)).
Proof.
  intros Hoh Hoc Hold Hload Hh Hu Hp.
  destruct (save_to_history_stored id old (files st) oh Hoh Hload Hh Hu)
    as (fs1 & H1 & Hs1 & _).
  assert (Hfresh : unicode_chat [system_message] = true)
    by (by apply (unicode_chat_snoc [] system_message)).
  destruct (save_chat_stored id [system_message] fs1 Hoc Hfresh)
    as (fs2 & H2 & Hs2 & Hframe).
  eexists. unfold reset_conversation. rewrite Hold. cbn [bind].
  rewrite H1. cbn [bind]. rewrite H2. cbn [bind].
  split; [done|]. split; [apply the_chat_set|]. split; [done|].
  apply stored_load_history. cbn [files].
  eapply stored_frame; [|done].
  apply Hframe. intros Heq. by apply (chat_file_history_file id).
Qed.

(** *** The blocks of a run, from their results *)

Lemma save_chat_inv id c fs fs' :
  save_chat id c fs = Ok fs' ->
  exists b, open_error (chat_file id) = None
    /\ write_json c = Ok b /\ fs' = <[chat_file id := b]> fs.
Proof.
  unfold save_chat. intros ([] & Ho%open_for_writing_ok & H)%bind_ok.
  apply bind_ok in H as (b & Hw & [= <-]). eauto.
Qed.

Lemma save_to_history_inv id c fs fs' :
  save_to_history id c fs = Ok fs' ->
  exists oh b, open_error (history_file id) = None
    /\ load_history id fs = Ok oh
    /\ write_json (default [] oh ++ filter (fun m => role m <> lit "system") c) = Ok b
    /\ fs' = <[history_file id := b]> fs.
Proof.
  unfold save_to_history, load_history.
  destruct (fs !! history_file id) as [b0|].
  - intros (h & Hr & H)%bind_ok. rewrite archive_filter in H.
    apply bind_ok in H as ([] & Ho%open_for_writing_ok & H).
    apply bind_ok in H as (b & Hw & [= <-]).
    exists (Some h), b. by rewrite Hr.
  - cbn [bind]. rewrite archive_filter.
    intros ([] & Ho%open_for_writing_ok & H)%bind_ok.
    apply bind_ok in H as (b & Hw & [= <-]). by exists None, b.
Qed.

Lemma mutate_inv id mu st st' :
  mutate id mu st = Ok st' ->
  exists c b, open_error (chat_file id) = None
    /\ the_chat id st = Ok c
    /\ write_json (c ++ [mutation_message mu]) = Ok b
    /\ st' = State (Some (<[id := c ++ [mutation_message mu]]> (session st)))
                   (<[chat_file id := b]> (files st)).
Proof.
  destruct mu; cbn [mutate mutation_message];
    unfold append_user_message, append_assistant_message;
    intros (c & Hc & H)%bind_ok;
    apply bind_ok in H as (fs & (b & Ho & Hw & ->)%save_chat_inv & [= <-]);
    by exists c, b.
Qed.

Lemma reset_conversation_inv id st st' :
  reset_conversation id st = Ok st' ->
  exists old oh bh bc,
    the_chat id st = Ok old
    /\ load_history id (files st) = Ok oh
    /\ open_error (history_file id) = None
    /\ open_error (chat_file id) = None
    /\ write_json (default [] oh ++ filter (fun m => role m <> lit "system") old)
       = Ok bh
    /\ write_json [system_message] = Ok bc
    /\ st' = State (Some (<[id := [system_message]]> (session st)))
                   (<[chat_file id := bc]>
                      (<[history_file id := bh]> (files st))).
Proof.
  unfold reset_conversation. intros (old & Hold & H)%bind_ok.
  apply bind_ok in H
    as (fs1 & (oh & bh & Hoh & Hl & Hw & ->)%save_to_history_inv & H).
  apply bind_ok in H as (fs2 & (bc & Hoc & Hc & ->)%save_chat_inv & [= <-]).
  by exists old, oh, bh, bc.
Qed.

Lemma handle_user_message_inv id text backend st st' :
  truthy text = true -> truthy id = true ->
  handle_user_message id (Some text) backend st = Ok st' ->
  exists c b,
    the_chat id st = Ok c
    /\ open_error (chat_file id) = None
    /\ write_json (c ++ [Message (lit "user") text;
                         Message (lit "assistant")
                           (consume_stream (backend (c ++ [Message (lit "user") text])))])
       = Ok b
    /\ st' = State
               (Some (<[id := c ++ [Message (lit "user") text;
                                    Message (lit "assistant")
                                      (consume_stream
                                         (backend (c ++ [Message (lit "user") text])))]]>
                        (session st)))
               (<[chat_file id := b]> (files st)).
Proof.
  intros Ht Hid. unfold handle_user_message. rewrite Ht, Hid. cbn [andb].
  intros (st1 & H1 & H)%bind_ok.
  apply (mutate_inv id (UserMessage text)) in H1 as (c & b1 & Ho & Hc & Hw1 & ->).
  apply bind_ok in H as (_ & _ & H).
  rewrite the_chat_set in H. cbn [bind] in H.
  apply bind_ok in H as (_ & _ & H).
  apply (mutate_inv id (AssistantMessage _)) in H as (c1 & b2 & _ & Hc1 & Hw2 & ->).
  rewrite the_chat_set in Hc1. injection Hc1 as <-.
  cbn [mutation_message session customer_chats files default] in *.
  rewrite <- app_assoc in Hw2. cbn [app] in Hw2.
  exists c, b2. split; [done|]. split; [done|]. split; [done|].
  unfold Datatypes.id. rewrite !insert_insert_eq, <- app_assoc. done.
Qed.

Lemma handle_user_message_cases id input backend st st' :
  handle_user_message id input backend st = Ok st' ->
  st' = st
  \/ exists text, truthy text = true /\ truthy id = true
        /\ handle_user_message id (Some text) backend st = Ok st'.
Proof.
  destruct input as [text|]; [|by intros [= <-]; left].
  destruct (truthy text) eqn:Ht; [destruct (truthy id) eqn:Hid|].
  - intros H. right. by exists text.
  - unfold handle_user_message. rewrite Ht, Hid. by intros [= <-]; left.
  - unfold handle_user_message. rewrite Ht. by intros [= <-]; left.
Qed.

Lemma ensure_loaded_inv id st st' :
  ensure_loaded id st = Ok st' ->
  files st' = files st
  /\ (forall id', id' <> id -> session st' !! id' = session st !! id')
  /\ exists c, session st' !! id = Some c
       /\ (session st !! id = Some c
           \/ session st !! id = None /\ load_chat id (files st) = Ok c).
Proof.
  unfold ensure_loaded. destruct (session st !! id) as [c|] eqn:Hs.
  - intros [= <-]. cbn. split; [done|]. split; [done|]. exists c. auto.
  - intros (c & Hl & [= <-])%bind_ok. cbn. split; [done|]. split.
    + intros id' Hne. by rewrite lookup_insert_ne.
    + exists c. rewrite lookup_insert_eq. auto.
Qed.

Lemma display_chat_filter c :
  display_chat c
  = map (fun m => (role m, content m))
        (filter (fun m => role m <> lit "system") c).
Proof.
  unfold display_chat.
  assert (H : forall shown,
             fold_left (fun shown msg =>
                          if bool_decide (role msg = lit "system") then shown
                          else shown ++ [(role msg, content msg)]) c shown
             = shown ++ map (fun m => (role m, content m))
                            (filter (fun m => role m <> lit "system") c)).
  { induction c as [|m c IH]; intros shown; cbn [fold_left].
    - by rewrite app_nil_r.
    - rewrite IH, filter_cons.
      case_bool_decide; case_decide; try done. by rewrite <- app_assoc. }
  apply H.
Qed.

(** Drawing succeeds on Unicode text. *)
Lemma show_history_lines_ok h :
  unicode_chat h = true -> show_history_lines h = Ok tt.
Proof.
  induction h as [|m h IH]; [done|]. cbn [unicode_chat forallb].
  intros [Hm Hh]%andb_true_iff. cbn [show_history_lines]. rewrite Hm.
  cbn [bind]. by apply IH.
Qed.

Lemma show_history_ok id fs oh :
  load_history id fs = Ok oh -> unicode_chat (default [] oh) = true ->
  show_history id fs = Ok tt.
Proof.
  intros Hl Hu. unfold show_history. rewrite Hl. cbn [bind].
  destruct oh as [h|]; [|done]. by apply show_history_lines_ok.
Qed.

Lemma show_chat_ok c : unicode_chat c = true -> show_chat c = Ok tt.
Proof.
  unfold show_chat. rewrite display_chat_filter. intros Hu.
  apply (unicode_chat_filter (fun m => role m <> lit "system")) in Hu.
  induction (filter _ c) as [|m l IH]; [done|].
  cbn [unicode_chat forallb] in Hu. apply andb_true_iff in Hu as [Hm Hl].
  apply andb_true_iff in Hm as [Hr Hc].
  cbn [map render_all]. unfold render. rewrite Hr, Hc. cbn [bind]. by apply IH.
Qed.

(** *** The claims *)





(** C5: for a customer that is neither in the session nor has an active
    record, [ensure_loaded] yields the conversation made of the one system
    message whose content is the configured prompt. *)
Theorem ensure_loaded_fresh id st :
  session st !! id = None ->
  files st !! chat_file id = None ->
  exists st', ensure_loaded id st = Ok st'
    /\ the_chat id st' = Ok [Message (lit "system") system_prompt]
    /\ files st' = files st.
Proof.
  intros Hs Hf. eexists. unfold ensure_loaded, load_chat. rewrite Hs, Hf.
  cbn [bind]. split; [done|]. split; [apply the_chat_set|done].
Qed.



(** C8, amended: for a customer whose active record file can be opened for
    writing, a conversation of Unicode text, saved by [save_chat] and loaded
    by [load_chat], comes back as it was saved. *)
Theorem save_chat_load_chat id c fs :
  open_error (chat_file id) = None ->
  unicode_chat c = true ->
  exists fs', save_chat id c fs = Ok fs' /\ load_chat id fs' = Ok c.
Proof.
  intros Ho Hc. destruct (save_chat_stored id c fs Ho Hc) as (fs' & Hs & Hst & _).
  exists fs'. split; [done|]. by apply stored_load_chat.
Qed.

(** C9: a run with an empty customer ID changes neither the session nor
    any record, whatever the other inputs are. *)
Theorem no_customer_no_operation ev st :
  customer_id ev = [] -> script ev st = Ok st.
Proof.
  intros Hid. unfold script. rewrite Hid. cbn [truthy andb bind].
  destruct (negb configured); [done|]. rewrite andb_false_r. done.
Qed.


(** ** Properties of the record files *)

(** X1: without an API key, or with an empty one, a run stops before it
    reads or changes anything. *)
Theorem script_unconfigured ev st :
  configured = false -> script ev st = Ok st.
Proof. intros H. unfold script. by rewrite H. Qed.

(** X2: two customers share an active record, or a history record, only
    when their IDs are equal. *)
Theorem record_files_injective a b :
  (chat_file a = chat_file b <-> a = b)
  /\ (history_file a = history_file b <-> a = b).
Proof.
  split; (split; [|by intros ->]).
  - apply chat_file_inj.
  - apply history_file_inj.
Qed.

(** X3: the active record of a customer is the history record of another
    one exactly when its ID is the other ID followed by ["_history"]. *)
Theorem chat_file_is_history_file a b :
  chat_file a = history_file b <-> a = b ++ lit "_history".
Proof.
  split; [apply chat_file_history_file_eq|].
  intros ->. apply chat_file_of_history_id_eq.
Qed.

(** X4: the outcomes of [save_chat].  It writes the record: then the file
    could be opened, every text of the conversation is Unicode text and the
    record reads back as the conversation.  Or it raises: the exception of
    [open] when the file cannot be opened for writing, and
    [UnicodeEncodeError] when it can and some text is not Unicode text. *)
Theorem save_chat_outcome id c fs :
  match save_chat id c fs with
  | Ok fs' =>
      open_error (chat_file id) = None
      /\ unicode_chat c = true /\ stored fs' (chat_file id) c
  | Raise e =>
      open_error (chat_file id) = Some e
      \/ (open_error (chat_file id) = None
          /\ unicode_chat c = false /\ e = UnicodeEncodeError)
  | Beyond => False
  end.
Proof.
  destruct (open_error (chat_file id)) as [e|] eqn:Ho.
  - unfold save_chat, open_for_writing. rewrite Ho. cbn [bind]. by left.
  - destruct (unicode_chat c) eqn:Hu.
    + destruct (save_chat_stored id c fs Ho Hu) as (fs' & -> & Hs & _). done.
    + unfold save_chat, open_for_writing. rewrite Ho. cbn [bind].
      rewrite write_json_not_unicode by done. cbn [bind]. by right.
Qed.

(** X5: [save_chat] overwrites: what an earlier [save_chat] for the same
    customer wrote has no effect on the result. *)
Theorem save_chat_overwrites id c1 c2 fs fs1 :
  save_chat id c1 fs = Ok fs1 ->
  save_chat id c2 fs1 = save_chat id c2 fs.
Proof.
  intros (b1 & Ho & _ & ->)%save_chat_inv. unfold save_chat, open_for_writing.
  rewrite Ho. cbn [bind].
  destruct (write_json c2); cbn [bind]; [|done..]. by rewrite insert_insert_eq.
Qed.

(** X6: [save_chat] for a customer changes no active record of another
    customer and no history record, except the history record whose file is
    this customer's active record. *)
Theorem save_chat_frame id c fs fs' :
  save_chat id c fs = Ok fs' ->
  (forall id', id' <> id -> fs' !! chat_file id' = fs !! chat_file id')
  /\ (forall id', id <> id' ++ lit "_history" ->
        fs' !! history_file id' = fs !! history_file id').
Proof.
  intros (b & _ & _ & ->)%save_chat_inv. split; intros id' Hne.
  - rewrite lookup_insert_ne; [done|]. intros H%chat_file_inj. congruence.
  - rewrite lookup_insert_ne; [done|].
    intros H%chat_file_history_file_eq. congruence.
Qed.

(** X7: [save_to_history] for a customer changes neither that customer's
    active record nor the history record of another customer. *)
Theorem save_to_history_frame id c fs fs' :
  save_to_history id c fs = Ok fs' ->
  fs' !! chat_file id = fs !! chat_file id
  /\ (forall id', id' <> id -> fs' !! history_file id' = fs !! history_file id').
Proof.
  intros (oh & b & _ & _ & _ & ->)%save_to_history_inv. split.
  - rewrite lookup_insert_ne; [done|]. intros H. by apply (chat_file_history_file id).
  - intros id' Hne. rewrite lookup_insert_ne; [done|].
    intros H%history_file_inj. congruence.
Qed.


(** X9: archiving a conversation and then a second one leaves the same
    files as archiving the two conversations joined, in one call. *)
Theorem save_to_history_app id c1 c2 fs fs1 fs2 :
  save_to_history id c1 fs = Ok fs1 ->
  save_to_history id c2 fs1 = Ok fs2 ->
  save_to_history id (c1 ++ c2) fs = Ok fs2.
Proof.
  intros (oh & b1 & Ho & Hl & Hw1 & ->)%save_to_history_inv
         (oh2 & b2 & _ & Hl2 & Hw2 & ->)%save_to_history_inv.
  unfold load_history in Hl2. rewrite lookup_insert_eq in Hl2.
  rewrite (write_json_read_json _ _ Hw1) in Hl2. injection Hl2 as <-.
  change (default [] (Some ?h)) with h in Hw2.
  rewrite insert_insert_eq.
  apply (save_to_history_intro id (c1 ++ c2) fs oh); [done|done|].
  by rewrite filter_app, app_assoc.
Qed.


(** ** Properties of the session *)

(** X11: [ensure_loaded] is idempotent: a second call changes nothing. *)
Theorem ensure_loaded_idempotent id st st1 :
  ensure_loaded id st = Ok st1 -> ensure_loaded id st1 = Ok st1.
Proof.
  unfold ensure_loaded. destruct (session st !! id) as [c|] eqn:Hs.
  - intros [= <-]. cbn [session customer_chats files default].
    unfold Datatypes.id. by rewrite Hs.
  - intros (c & _ & [= <-])%bind_ok. cbn [session customer_chats files default].
    unfold Datatypes.id. by rewrite lookup_insert_eq.
Qed.

(** X12: a conversation that [save_chat] wrote is the one [ensure_loaded]
    finds for a session that does not hold the customer yet, a new session
    after a restart for one. *)
Theorem conversation_survives_restart id c st fs' :
  session st !! id = None ->
  save_chat id c (files st) = Ok fs' ->
  exists st', ensure_loaded id (State (customer_chats st) fs') = Ok st'
    /\ the_chat id st' = Ok c
    /\ files st' = fs'.
Proof.
  intros Hs (b & _ & Hw & ->)%save_chat_inv. eexists.
  unfold ensure_loaded, load_chat. cbn [files].
  change (session (State (customer_chats st) ?f)) with (session st).
  rewrite Hs, lookup_insert_eq, (write_json_read_json _ _ Hw). cbn [bind].
  split; [done|]. split; [apply the_chat_set|done].
Qed.

(** X13: [ensure_loaded] writes no file and leaves the conversations of the
    other customers in the session as they are. *)
Theorem ensure_loaded_frame id st st' :
  ensure_loaded id st = Ok st' ->
  files st' = files st
  /\ (forall id', id' <> id -> session st' !! id' = session st !! id').
Proof. intros (Hf & Hs & _)%ensure_loaded_inv. done. Qed.

(** X14: resetting twice is resetting once: a reset right after a reset
    leaves the session and every file as they are. *)
Theorem reset_conversation_idempotent id st st1 :
  reset_conversation id st = Ok st1 -> reset_conversation id st1 = Ok st1.
Proof.
  intros (old & oh & bh & bc & _ & _ & Hoh & Hoc & Hwh & Hwc & ->)
         %reset_conversation_inv.
  set (h := default [] oh ++ filter (fun m => role m <> lit "system") old) in *.
  set (fs2 := <[chat_file id := bc]> (<[history_file id := bh]> (files st))).
  assert (Hhf : fs2 !! history_file id = Some bh).
  { unfold fs2. rewrite lookup_insert_ne by apply chat_file_history_file.
    apply lookup_insert_eq. }
  assert (Hcf : fs2 !! chat_file id = Some bc) by apply lookup_insert_eq.
  assert (Hl : load_history id fs2 = Ok (Some h)).
  { unfold load_history. by rewrite Hhf, (write_json_read_json _ _ Hwh). }
  assert (Hnone : filter (fun m => role m <> lit "system") [system_message] = []).
  { rewrite filter_cons, decide_False by (intros H; by apply H). done. }
  unfold reset_conversation. rewrite the_chat_set. cbn [bind files].
  rewrite (save_to_history_intro id [system_message] fs2 (Some h) bh Hoh Hl)
    by (by rewrite Hnone, app_nil_r).
  cbn [bind]. unfold save_chat, open_for_writing. rewrite Hoc. cbn [bind].
  rewrite Hwc. cbn [bind].
  rewrite (insert_id fs2 _ _ Hhf), (insert_id fs2 _ _ Hcf).
  cbn [session customer_chats default]. unfold Datatypes.id.
  by rewrite insert_insert_eq.
Qed.

(** X15: each successful user turn appends exactly two messages to the
    conversation, the user text and one assistant message whose content is
    what the stream gave for the conversation with the user message, and the
    active record holds the result. *)
Theorem turn_appends_two id text backend st st' :
  truthy text = true ->
  truthy id = true ->
  handle_user_message id (Some text) backend st = Ok st' ->
  exists c,
    the_chat id st = Ok c
    /\ the_chat id st'
       = Ok (c ++ [Message (lit "user") text;
                   Message (lit "assistant")
                     (consume_stream (backend (c ++ [Message (lit "user") text])))])
    /\ stored (files st') (chat_file id)
         (c ++ [Message (lit "user") text;
                Message (lit "assistant")
                  (consume_stream (backend (c ++ [Message (lit "user") text])))]).
Proof.
  intros Ht Hid (c & b & Hc & _ & Hw & ->)%handle_user_message_inv; [|done..].
  exists c. split; [done|]. split; [apply the_chat_set|].
  exists b. cbn [files]. rewrite lookup_insert_eq.
  by rewrite (write_json_read_json _ _ Hw).
Qed.


(** ** Properties of a run *)

(** X17: a run touches no file but the active record and the history
    record of its customer, and no conversation of another customer in the
    session; without the New Chat button it leaves the history record as it
    is. *)
Theorem script_frame ev st st' :
  script ev st = Ok st' ->
  (forall p, p <> chat_file (customer_id ev) ->
             p <> history_file (customer_id ev) ->
             files st' !! p = files st !! p)
  /\ (forall id', id' <> customer_id ev -> session st' !! id' = session st !! id')
  /\ (new_chat ev = false ->
      files st' !! history_file (customer_id ev)
      = files st !! history_file (customer_id ev)).
Proof.
  unfold script. destruct (negb configured); [by intros [= <-]|].
  destruct (truthy (customer_id ev)) eqn:Hid.
  - intros (st1 & (Hf1 & Hs1 & _)%ensure_loaded_inv & H)%bind_ok.
    destruct (new_chat ev); cbn [andb] in H.
    + apply reset_conversation_inv in H
        as (old & oh & bh & bc & _ & _ & _ & _ & _ & _ & ->).
      cbn [files session customer_chats default]. unfold Datatypes.id.
      split; [|split; [|done]].
      * intros p Hc Hh. by rewrite !lookup_insert_ne, Hf1.
      * intros id' Hne. by rewrite lookup_insert_ne, Hs1.
    + apply bind_ok in H as (_ & _ & H). apply bind_ok in H as (_ & _ & H).
      apply handle_user_message_cases in H as [->|(text & Ht & _ & H)].
      * rewrite Hf1. by auto.
      * apply handle_user_message_inv in H as (c & b & _ & _ & _ & ->); [|done..].
        cbn [files session customer_chats default]. unfold Datatypes.id.
        split; [|split].
        -- intros p Hc Hh. by rewrite lookup_insert_ne, Hf1.
        -- intros id' Hne. by rewrite lookup_insert_ne, Hs1.
        -- intros _. rewrite lookup_insert_ne, Hf1; [done|].
           apply chat_file_history_file.
  - cbn [bind andb]. rewrite andb_false_r. cbn [bind handle_user_message].
    by intros [= <-].
Qed.

(** X18: a run without the New Chat button and without a submitted text
    writes no file. *)
Theorem idle_run_writes_nothing ev st st' :
  new_chat ev = false ->
  chat_input ev = None ->
  script ev st = Ok st' ->
  files st' = files st.
Proof.
  intros Hb Hi. unfold script. rewrite Hb, Hi.
  destruct (negb configured); [by intros [= <-]|].
  destruct (truthy (customer_id ev)); cbn [andb bind handle_user_message].
  - intros (st1 & (Hf1 & _)%ensure_loaded_inv & H)%bind_ok.
    apply bind_ok in H as (_ & _ & H). apply bind_ok in H as (_ & _ & [= <-]).
    done.
  - by intros [= <-].
Qed.

(** X19: a run keeps the session in step with the files: when the
    conversation of the customer in the session was what [load_chat] gives
    before the run, it is so after the run. *)
Theorem script_keeps_record_in_step ev st st' :
  (forall c, the_chat (customer_id ev) st = Ok c ->
             load_chat (customer_id ev) (files st) = Ok c) ->
  script ev st = Ok st' ->
  forall c, the_chat (customer_id ev) st' = Ok c ->
            load_chat (customer_id ev) (files st') = Ok c.
Proof.
  intros Hsync. unfold script. destruct (negb configured); [by intros [= <-]|].
  destruct (truthy (customer_id ev)) eqn:Hid.
  - intros (st1 & Hens & H)%bind_ok.
    assert (Hsync1 : forall c, the_chat (customer_id ev) st1 = Ok c ->
                               load_chat (customer_id ev) (files st1) = Ok c).
    { apply ensure_loaded_inv in Hens as (Hf1 & _ & c & Hc & Hfrom).
      intros c' Hc'. apply session_the_chat in Hc. rewrite Hc in Hc'.
      injection Hc' as <-. rewrite Hf1.
      destruct Hfrom as [Hin|[_ Hload]]; [|done].
      by apply Hsync, session_the_chat. }
    destruct (new_chat ev); cbn [andb] in H.
    + apply reset_conversation_inv in H
        as (old & oh & bh & bc & _ & _ & _ & _ & _ & Hwc & ->).
      intros c. rewrite the_chat_set. intros [= <-].
      unfold load_chat. cbn [files]. rewrite lookup_insert_eq.
      by apply write_json_read_json in Hwc.
    + apply bind_ok in H as (_ & _ & H). apply bind_ok in H as (_ & _ & H).
      apply handle_user_message_cases in H as [->|(text & Ht & _ & H)]; [done|].
      apply handle_user_message_inv in H as (c0 & b & _ & _ & Hw & ->); [|done..].
      intros c. rewrite the_chat_set. intros [= <-].
      unfold load_chat. cbn [files]. rewrite lookup_insert_eq.
      by apply write_json_read_json in Hw.
  - cbn [bind andb]. rewrite andb_false_r. cbn [bind handle_user_message].
    by intros [= <-].
Qed.


(** X21: a run with the New Chat button pressed ends at the reset: the
    submitted text and the backend play no part in its result. *)
Theorem new_chat_ignores_input id input1 input2 backend1 backend2 st :
  script (Event id true input1 backend1) st
  = script (Event id true input2 backend2) st.
Proof.
  unfold script. cbn [customer_id new_chat chat_input completions].
  destruct (negb configured); [done|].
  destruct (truthy id); cbn [andb bind handle_user_message]; [|done].
  by destruct (ensure_loaded id st).
Qed.

(** X22: an active record that is not UTF-8, or in which no JSON value
    starts, stops every run for a customer that the session does not hold
    yet, with the error of the decoder. *)
Theorem corrupt_chat_stops_run ev st b e :
  configured = true ->
  truthy (customer_id ev) = true ->
  session st !! customer_id ev = None ->
  files st !! chat_file (customer_id ev) = Some b ->
  read_json b = Raise e ->
  script ev st = Raise e.
Proof.
  intros Hk Hid Hs Hf Hr. unfold script. rewrite Hk, Hid. cbn [negb].
  unfold ensure_loaded, load_chat. by rewrite Hs, Hf, Hr.
Qed.

(** X23: a history record that is not UTF-8, or in which no JSON value
    starts, stops every run for its customer once the conversation is in
    the session: neither a submitted text nor a New Chat gets through. *)
Theorem corrupt_history_stops_run ev st c b e :
  configured = true ->
  truthy (customer_id ev) = true ->
  session st !! customer_id ev = Some c ->
  files st !! history_file (customer_id ev) = Some b ->
  read_json b = Raise e ->
  script ev st = Raise e.
Proof.
  intros Hk Hid Hs Hf Hr. unfold script. rewrite Hk, Hid. cbn [negb].
  unfold ensure_loaded. rewrite Hs. cbn [bind].
  assert (Hc : the_chat (customer_id ev) (State (Some (session st)) (files st)) = Ok c).
  { apply session_the_chat. cbn. done. }
  destruct (new_chat ev); cbn [andb].
  - unfold reset_conversation, save_to_history. rewrite Hc. cbn [bind files].
    by rewrite Hf, Hr.
  - unfold show_history, load_history. cbn [files]. by rewrite Hf, Hr.
Qed.

End Facts.

(** ** The claims at concrete inputs *)









Lemma ensure_loaded_fresh_witness :
  exists st', ensure_loaded Posix DEFAULT_SYSTEM_PROMPT (lit "C2") demo_state = Ok st'
    /\ the_chat (lit "C2") st' = Ok [Message (lit "system") DEFAULT_SYSTEM_PROMPT]
    /\ files st' = files demo_state.
Proof.
  apply (ensure_loaded_fresh Posix DEFAULT_SYSTEM_PROMPT (lit "C2") demo_state).
  - reflexivity.
  - reflexivity.
Defined.




Lemma save_chat_load_chat_witness :
  exists fs', save_chat Windows (only_chat_dir Windows) demo_id demo_chat ∅ = Ok fs'
    /\ load_chat Windows DEFAULT_SYSTEM_PROMPT demo_id fs' = Ok demo_chat.
Proof.
  apply (save_chat_load_chat Windows (only_chat_dir Windows)
           DEFAULT_SYSTEM_PROMPT demo_id demo_chat ∅).
  - reflexivity.
  - reflexivity.
Defined.

(** C8 as it was stated fails for the customer ID ["a/b"]: [save_chat]
    raises and there is nothing to load. *)
Lemma save_chat_load_chat_fails :
  unicode_chat demo_chat = true
  /\ save_chat Posix (only_chat_dir Posix) slash_id demo_chat ∅
     = Raise FileNotFoundError
  /\ ~ exists fs',
         save_chat Posix (only_chat_dir Posix) slash_id demo_chat ∅ = Ok fs'
         /\ load_chat Posix DEFAULT_SYSTEM_PROMPT slash_id fs' = Ok demo_chat.
Proof.
  split; [reflexivity|]. split; [vm_compute; reflexivity|].
  intros (fs' & H & _). vm_compute in H. discriminate.
Qed.

Lemma no_customer_no_operation_witness :
  script Posix (only_chat_dir Posix) (Some (lit "sk-test")) DEFAULT_SYSTEM_PROMPT
    (Event [] true (Some (lit "Hello")) demo_reply) demo_state
  = Ok demo_state.
Proof.
  apply (no_customer_no_operation Posix (only_chat_dir Posix)
           (Some (lit "sk-test")) DEFAULT_SYSTEM_PROMPT
           (Event [] true (Some (lit "Hello")) demo_reply) demo_state).
  reflexivity.
Defined.



(** ** Remarks on the model *)

(** A text with a lone surrogate is a Python [str] but not Unicode text:
    the file cannot hold it and [save_chat] raises. *)
Remark save_chat_lone_surrogate :
  save_chat Posix (only_chat_dir Posix) demo_id [Message (lit "user") [0xD800]] ∅
  = Raise UnicodeEncodeError.
Proof. reflexivity. Qed.

(** The saved bytes of a conversation differ between the platforms only in
    the line ends of the layout; the content is read back the same. *)
Remark read_json_platforms :
  write_json Posix demo_chat <> write_json Windows demo_chat
  /\ (do b <- write_json Posix demo_chat; read_json b) = Ok demo_chat
  /\ (do b <- write_json Windows demo_chat; read_json b) = Ok demo_chat.
Proof. split; [by vm_compute|]. split; vm_compute; reflexivity. Qed.

(** The active record of the customer [id ++ "_history"] is the file of the
    history record of the customer [id]. *)
Remark chat_file_of_history_id os id :
  chat_file os (id ++ lit "_history") = history_file os id.
Proof.
  unfold chat_file, history_file, path_join. by rewrite <- !app_assoc.
Qed.

(** A history record with an escaped lone surrogate is loaded, and drawing
    it in the sidebar raises: the run stops before the input is handled. *)
Remark history_lone_surrogate_stops_run :
  load_history Posix demo_id {[ history_file Posix demo_id := surrogate_record ]}
  = Ok (Some [Message (lit "user") [0xD800]])
  /\ script Posix (only_chat_dir Posix) demo_key DEFAULT_SYSTEM_PROMPT demo_turn
       (State None {[ history_file Posix demo_id := surrogate_record ]})
     = Raise UnicodeEncodeError.
Proof. split; vm_compute; reflexivity. Qed.

(** A record with the members in the other order is JSON that [json.load]
    loads into a list the model does not describe: no verdict. *)
Remark other_member_order_is_beyond :
  read_json (lit "[{" ++ [34] ++ lit "content" ++ [34] ++ lit ":" ++ [34]
             ++ lit "hi" ++ [34] ++ lit "," ++ [34] ++ lit "role" ++ [34]
             ++ lit ":" ++ [34] ++ lit "user" ++ [34] ++ lit "}]")
  = Beyond.
Proof. reflexivity. Qed.

(** ** The further properties at concrete inputs *)

Lemma script_unconfigured_witness :
  script Posix (only_chat_dir Posix) (Some []) DEFAULT_SYSTEM_PROMPT demo_turn
    demo_state = Ok demo_state.
Proof.
  apply (script_unconfigured Posix (only_chat_dir Posix) (Some [])
           DEFAULT_SYSTEM_PROMPT demo_turn demo_state).
  reflexivity.
Defined.

Lemma save_chat_overwrites_witness :
  save_chat Posix (only_chat_dir Posix) demo_id demo_history demo_saved
  = save_chat Posix (only_chat_dir Posix) demo_id demo_history ∅.
Proof.
  apply (save_chat_overwrites Posix (only_chat_dir Posix) demo_id demo_chat
           demo_history ∅ demo_saved).
  vm_compute. reflexivity.
Defined.

Lemma save_chat_frame_witness :
  (forall id', id' <> demo_id ->
     demo_saved !! chat_file Posix id' = (∅ : gmap str bytes) !! chat_file Posix id')
  /\ (forall id', demo_id <> id' ++ lit "_history" ->
        demo_saved !! history_file Posix id'
        = (∅ : gmap str bytes) !! history_file Posix id').
Proof.
  apply (save_chat_frame Posix (only_chat_dir Posix) demo_id demo_chat ∅
           demo_saved).
  vm_compute. reflexivity.
Defined.

Lemma save_to_history_frame_witness :
  demo_archived !! chat_file Posix demo_id
  = files demo_state !! chat_file Posix demo_id
  /\ (forall id', id' <> demo_id ->
        demo_archived !! history_file Posix id'
        = files demo_state !! history_file Posix id').
Proof.
  apply (save_to_history_frame Posix (only_chat_dir Posix) demo_id demo_chat
           (files demo_state) demo_archived).
  vm_compute. reflexivity.
Defined.


Lemma save_to_history_app_witness :
  save_to_history Posix (only_chat_dir Posix) demo_id (demo_chat ++ demo_history)
    (files demo_state)
  = Ok demo_archived_twice.
Proof.
  apply (save_to_history_app Posix (only_chat_dir Posix) demo_id demo_chat
           demo_history (files demo_state) demo_archived demo_archived_twice).
  - vm_compute. reflexivity.
  - vm_compute. reflexivity.
Defined.


Lemma ensure_loaded_idempotent_witness :
  ensure_loaded Posix DEFAULT_SYSTEM_PROMPT (lit "C2") demo_loaded = Ok demo_loaded.
Proof.
  apply (ensure_loaded_idempotent Posix DEFAULT_SYSTEM_PROMPT (lit "C2")
           demo_state demo_loaded).
  vm_compute. reflexivity.
Defined.

Lemma conversation_survives_restart_witness :
  exists st',
    ensure_loaded Posix DEFAULT_SYSTEM_PROMPT demo_id (State None demo_saved) = Ok st'
    /\ the_chat demo_id st' = Ok demo_chat
    /\ files st' = demo_saved.
Proof.
  apply (conversation_survives_restart Posix (only_chat_dir Posix)
           DEFAULT_SYSTEM_PROMPT demo_id demo_chat (State None ∅) demo_saved).
  - reflexivity.
  - vm_compute. reflexivity.
Defined.

Lemma ensure_loaded_frame_witness :
  files demo_loaded = files demo_state
  /\ (forall id', id' <> lit "C2" ->
        session demo_loaded !! id' = session demo_state !! id').
Proof.
  apply (ensure_loaded_frame Posix DEFAULT_SYSTEM_PROMPT (lit "C2") demo_state
           demo_loaded).
  vm_compute. reflexivity.
Defined.

Lemma reset_conversation_idempotent_witness :
  reset_conversation Posix (only_chat_dir Posix) DEFAULT_SYSTEM_PROMPT demo_id
    demo_after_reset
  = Ok demo_after_reset.
Proof.
  apply (reset_conversation_idempotent Posix (only_chat_dir Posix)
           DEFAULT_SYSTEM_PROMPT demo_id demo_state demo_after_reset).
  vm_compute. reflexivity.
Defined.

Lemma turn_appends_two_witness :
  exists c,
    the_chat demo_id demo_state = Ok c
    /\ the_chat demo_id demo_after_turn
       = Ok (c ++ [Message (lit "user") (lit "Hello");
                   Message (lit "assistant")
                     (consume_stream
                        (demo_reply (c ++ [Message (lit "user") (lit "Hello")])))])
    /\ stored (files demo_after_turn) (chat_file Posix demo_id)
         (c ++ [Message (lit "user") (lit "Hello");
                Message (lit "assistant")
                  (consume_stream
                     (demo_reply (c ++ [Message (lit "user") (lit "Hello")])))]).
Proof.
  apply (turn_appends_two Posix (only_chat_dir Posix) demo_id (lit "Hello")
           demo_reply demo_state demo_after_turn).
  - reflexivity.
  - reflexivity.
  - vm_compute. reflexivity.
Defined.


Lemma script_frame_witness :
  (forall p, p <> chat_file Posix demo_id -> p <> history_file Posix demo_id ->
             files demo_after_turn !! p = files demo_state !! p)
  /\ (forall id', id' <> demo_id ->
        session demo_after_turn !! id' = session demo_state !! id')
  /\ (false = false ->
      files demo_after_turn !! history_file Posix demo_id
      = files demo_state !! history_file Posix demo_id).
Proof.
  apply (script_frame Posix (only_chat_dir Posix) demo_key DEFAULT_SYSTEM_PROMPT
           demo_turn demo_state demo_after_turn).
  vm_compute. reflexivity.
Defined.

Lemma idle_run_writes_nothing_witness :
  files demo_after_idle = demo_saved.
Proof.
  apply (idle_run_writes_nothing Posix (only_chat_dir Posix) demo_key
           DEFAULT_SYSTEM_PROMPT demo_idle (State None demo_saved)
           demo_after_idle).
  - reflexivity.
  - reflexivity.
  - vm_compute. reflexivity.
Defined.

Lemma script_keeps_record_in_step_witness :
  load_chat Posix DEFAULT_SYSTEM_PROMPT demo_id (files fresh_after_turn)
  = Ok [Message (lit "system") DEFAULT_SYSTEM_PROMPT;
        Message (lit "user") (lit "Hello");
        Message (lit "assistant") (lit "Hi there")].
Proof.
  apply (script_keeps_record_in_step Posix (only_chat_dir Posix) demo_key
           DEFAULT_SYSTEM_PROMPT demo_turn fresh_state fresh_after_turn).
  - intros c H. vm_compute in H. injection H as <-. vm_compute. reflexivity.
  - vm_compute. reflexivity.
  - vm_compute. reflexivity.
Defined.


Lemma corrupt_chat_stops_run_witness :
  script Posix (only_chat_dir Posix) demo_key DEFAULT_SYSTEM_PROMPT demo_turn
    demo_corrupt
  = Raise JSONDecodeError.
Proof.
  apply (corrupt_chat_stops_run Posix (only_chat_dir Posix) demo_key
           DEFAULT_SYSTEM_PROMPT demo_turn demo_corrupt (lit "corrupt")
           JSONDecodeError).
  - reflexivity.
  - reflexivity.
  - reflexivity.
  - reflexivity.
  - reflexivity.
Defined.

Lemma corrupt_history_stops_run_witness :
  script Posix (only_chat_dir Posix) demo_key DEFAULT_SYSTEM_PROMPT
    (Event demo_id true None demo_reply)
    (State (Some {[ demo_id := demo_chat ]}) (files demo_corrupt))
  = Raise UnicodeDecodeError.
Proof.
  apply (corrupt_history_stops_run Posix (only_chat_dir Posix) demo_key
           DEFAULT_SYSTEM_PROMPT (Event demo_id true None demo_reply)
           (State (Some {[ demo_id := demo_chat ]}) (files demo_corrupt))
           demo_chat [0xFF] UnicodeDecodeError).
  - reflexivity.
  - reflexivity.
  - reflexivity.
  - reflexivity.
  - reflexivity.
Defined.
